(** * Nutils debug / config: a shallow embedding and its verification

    The development follows [nutils/debug.py] (frames, source
    reconstruction, the traceback explorer and the HTML post-mortem dump)
    and [nutils/config.py] (the read-only configuration module with its
    scoped override).  Python byte strings are lists of characters,
    Python integers are [Z], exceptions are an explicit outcome. *)

From Stdlib Require Import ZArith List Ascii String Bool Lia.
From Stdlib Require Import DecimalString.
From stdpp Require Import base option list gmap strings sorting.

Local Open Scope Z_scope.
Local Open Scope list_scope.

(** ** Python byte strings *)

Module PyStr.

Abbreviation str := (list ascii).

(** A literal: the bytes of a string constant. *)
Definition py (s : string) : str := list_ascii_of_string s.

Definition chr (n : nat) : ascii := ascii_of_nat n.

Definition len (s : str) : Z := Z.of_nat (length s).

(** [c.isspace()] for a byte: space, tab, newline, vertical tab, form
    feed and carriage return. *)
Definition isspace (c : ascii) : bool :=
  let n := nat_of_ascii c in
  (n =? 32)%nat || ((9 <=? n)%nat && (n <=? 13)%nat).

Fixpoint lstrip (s : str) : str :=
  match s with
  | c :: r => if isspace c then lstrip r else s
  | [] => []
  end.

Definition rstrip (s : str) : str := rev (lstrip (rev s)).

Definition strip (s : str) : str := rstrip (lstrip s).

Fixpoint startswith (s p : str) : bool :=
  match p, s with
  | [], _ => true
  | a :: p', b :: s' => Ascii.eqb a b && startswith s' p'
  | _ :: _, [] => false
  end.

Definition endswith (s p : str) : bool := startswith (rev s) (rev p).

(** Slices [s[:k]] and [s[k:]] for a non-negative bound. *)
Definition upto (k : Z) (s : str) : str := firstn (Z.to_nat k) s.
Definition from (k : Z) (s : str) : str := skipn (Z.to_nat k) s.

(** Non-negative indexing [s[k]]; [None] stands for IndexError. *)
Definition item (k : Z) (s : str) : option ascii := nth_error s (Z.to_nat k).

Fixpoint times (s : str) (n : nat) : str :=
  match n with
  | O => []
  | S m => s ++ times s m
  end.

Definition spaces (n : Z) : str := times (py " ") (Z.to_nat n).

Definition ljust (w : Z) (s : str) : str := s ++ spaces (w - len s).
Definition rjust (w : Z) (s : str) : str := spaces (w - len s) ++ s.

Fixpoint join (sep : str) (l : list str) : str :=
  match l with
  | [] => []
  | [x] => x
  | x :: r => x ++ sep ++ join sep r
  end.

(** [s.replace(c, by)] for a one-character pattern. *)
Fixpoint replace (c : ascii) (by_ : str) (s : str) : str :=
  match s with
  | [] => []
  | a :: r => (if Ascii.eqb a c then by_ else [a]) ++ replace c by_ r
  end.

Fixpoint eqb (s t : str) : bool :=
  match s, t with
  | [], [] => true
  | a :: s', b :: t' => Ascii.eqb a b && eqb s' t'
  | _, _ => false
  end.

Definition LF : ascii := chr 10.

(** The double quote, as a one-byte string. *)
Definition quote : str := [chr 34].
Definition CR : ascii := chr 13.

(** [s.splitlines()] of a byte string: breaks at LF, CR and CR LF, the
    breaks dropped, no empty last line after a final break. *)
Fixpoint splitlines_go (cur : str) (s : str) : list str :=
  match s with
  | [] => match cur with [] => [] | _ => [rev cur] end
  | c :: r =>
      if Ascii.eqb c LF then rev cur :: splitlines_go [] r
      else if Ascii.eqb c CR then
        match r with
        | d :: r' => if Ascii.eqb d LF then rev cur :: splitlines_go [] r'
                     else rev cur :: splitlines_go [] r
        | [] => [rev cur]
        end
      else splitlines_go (c :: cur) r
  end.

Definition splitlines (s : str) : list str := splitlines_go [] s.

(** [s.split()]: the maximal runs of non-space bytes. *)
Fixpoint split_go (cur : str) (s : str) : list str :=
  match s with
  | [] => match cur with [] => [] | _ => [rev cur] end
  | c :: r =>
      if isspace c
      then match cur with [] => split_go [] r | _ => rev cur :: split_go [] r end
      else split_go (c :: cur) r
  end.

Definition split (s : str) : list str := split_go [] s.

(** [needle in s]. *)
Fixpoint contains (s needle : str) : bool :=
  startswith s needle ||
  match s with
  | [] => false
  | _ :: r => contains r needle
  end.

(** ['%d' % n]. *)
Definition of_int (n : Z) : str := py (NilZero.string_of_int (Z.to_int n)).

End PyStr.
Import PyStr.

(** ** Outcomes of Python computations *)

(** A raised exception: its class name, whether the class derives from
    [Exception] (as opposed to only [BaseException]), and what [str(e)]
    does: it returns a text, or it raises in its turn (a [__str__] of
    the program's own, a message that cannot be encoded). *)
Inductive exc : Type :=
  Exc (exc_class : str) (exc_is_Exception : bool) (exc_str : conversion)
with conversion : Type :=
| Text (s : str)
| Fails (e : exc).

Definition exc_class (e : exc) : str := let 'Exc c _ _ := e in c.
Definition exc_is_Exception (e : exc) : bool := let 'Exc _ b _ := e in b.
Definition exc_str (e : exc) : conversion := let 'Exc _ _ s := e in s.

(** A computation returns, raises, or exhausts the bound put on its
    loops. *)
Inductive outcome (A : Type) : Type :=
| Return (a : A)
| Raise (e : exc)
| OutOfFuel.
Arguments Return {A} a.
Arguments Raise {A} e.
Arguments OutOfFuel {A}.

#[global] Instance outcome_ret : MRet outcome := fun A a => Return a.

#[global] Instance outcome_bind : MBind outcome := fun A B k m =>
  match m with
  | Return a => k a
  | Raise e => Raise e
  | OutOfFuel => OutOfFuel
  end.

(** The exceptions that the interpreter raises; their [str] is their
    message. *)
Definition IndexError (m : string) : exc := Exc (py "IndexError") true (Text (py m)).
Definition ValueError (m : string) : exc := Exc (py "ValueError") true (Text (py m)).
Definition UnboundLocalError (name : string) : exc :=
  Exc (py "UnboundLocalError") true
      (Text (py "local variable '" ++ py name ++ py "' referenced before assignment")).

(** Reading a local variable that may not have been assigned yet. *)
Definition local {A} (name : string) (v : option A) : outcome A :=
  match v with
  | Some a => Return a
  | None => Raise (UnboundLocalError name)
  end.

(** [l[i]] on a list, negative indices counting from the end. *)
Definition getitem {A} (l : list A) (i : Z) : outcome A :=
  let n := Z.of_nat (length l) in
  let j := if i <? 0 then i + n else i in
  if (0 <=? j) && (j <? n)
  then match nth_error l (Z.to_nat j) with
       | Some a => Return a
       | None => Raise (IndexError "list index out of range")
       end
  else Raise (IndexError "list index out of range").

(** [l[:k]] on a list. *)
Definition slice_to {A} (l : list A) (k : Z) : list A :=
  let n := Z.of_nat (length l) in
  firstn (Z.to_nat (if k <? 0 then k + n else k)) l.

(** ** The debug module *)

(** Code objects and interpreter frames, as far as the module reads them. *)
Record code := {
  co_filename : str;
  co_name : str;
  co_firstlineno : Z
}.

Record pyframe {V : Type} := {
  f_code : code;
  f_lineno : Z;
  f_locals : list (str * V);
  f_globals : list (str * V)
}.
Arguments pyframe V : clear implicits.

(** What [sys.exc_info()] holds as traceback: [None], or a traceback
    object with its link [tb_next]. *)
Inductive traceback {V : Type} : Type :=
| TbNone
| Tb (tb_frame : pyframe V) (tb_lineno : Z) (tb_next : traceback).
Arguments traceback V : clear implicits.

(** class Frame *)
Record Frame {V : Type} := {
  frame : pyframe V;
  lineno : Z
}.
Arguments Frame V : clear implicits.

(** The interpreter and the libraries the module calls into. *)
Class Runtime (V : Type) := {
  linecache_getlines : str -> list str;
    (* linecache.getlines; [] when the file cannot be read *)
  relpath : str -> str;
    (* os.path.relpath, on the file names of code objects: these are
       taken to be paths that it accepts (it raises ValueError on an
       empty path or a path on another drive) *)
  method_code_is : V -> str -> code -> bool;
    (* obj.__dict__[name].func_code is code; false when the lookup fails *)
  py_str : V -> outcome str;
    (* str(v) *)
  py_repr : V -> str;
    (* repr(v) *)
  py_pformat : V -> outcome str;
    (* pprint.pformat(v) *)
  py_eval : str -> list (str * V) -> list (str * V) -> outcome V;
    (* eval(arg, globals, locals) *)
  repr_str : str -> str;
    (* repr of a byte string *)
  richoutput : bool;
    (* core.getprop('richoutput', False) *)
  Cmd_do_help : str -> str
    (* what cmd.Cmd.do_help prints *)
}.

Section Debug.

Context {V : Type} `{!Runtime V}.

(** linecache.getline: the line, or the empty string. *)
Definition linecache_getline (filename : str) (n : Z) : str :=
  let lines := linecache_getlines filename in
  if (1 <=? n) && (n <=? Z.of_nat (length lines))
  then nth (Z.to_nat (n - 1)) lines []
  else [].

(** Frame.__init__: [lineno or frame.f_lineno]. *)
Definition Frame_init (fr : pyframe V) (ln : option Z) : Frame V :=
  {| frame := fr;
     lineno := match ln with
               | Some n => if n =? 0 then f_lineno fr else n
               | None => f_lineno fr
               end |}.

(** Frame._name: the first global whose method of that name has this
    frame's code. *)
Definition _name (fr : pyframe V) : str :=
  let name := co_name (f_code fr) in
  match List.find (fun g => method_code_is (snd g) name (f_code fr)) (f_globals fr) with
  | Some (classname, _) => classname ++ py "." ++ name
  | None => name
  end.

Definition getline (self : Frame V) (n : Z) : str :=
  linecache_getline (co_filename (f_code (frame self))) n.

Definition where_ (self : Frame V) : str :=
  py "File " ++ quote ++ relpath (co_filename (f_code (frame self)))
  ++ quote ++ py ", line " ++ of_int (lineno self)
  ++ py ", in " ++ _name (frame self).

Definition context (self : Frame V) : str :=
  py "  " ++ where_ self ++ [LF] ++ py "    " ++ strip (getline self (lineno self)).

(** The decorator loop of Frame.source: [while line[indent] == '@']. *)
Fixpoint source_decorators (fuel : nat) (self : Frame V) (indent : Z)
    (ln : Z) (line source : str) : outcome (Z * str) :=
  match item indent line with
  | None => Raise (IndexError "string index out of range")
  | Some c =>
      if Ascii.eqb c "@"%char then
        match fuel with
        | O => OutOfFuel
        | S fuel' =>
            let ln := ln + 1 in
            let line := getline self ln in
            source_decorators fuel' self indent ln line (source ++ from indent line)
        end
      else Return (ln, source)
  end.

(** The scanning loop of Frame.source: [while True]. *)
Fixpoint source_body (fuel : nat) (self : Frame V) (path : str) (indent : Z)
    (ln : Z) (linebreak : bool) (source : str) : outcome str :=
  match fuel with
  | O => OutOfFuel
  | S fuel' =>
      let ln := ln + 1 in
      let line := linecache_getline path ln in
      let continue (line : str) :=
        let source :=
          source ++ (if ln =? lineno self
                     then py ">" ++ from (indent + 1) line
                     else from indent line) in
        let linebreak := endswith (rstrip line) (py "\") in
        source_body fuel' self path indent ln linebreak source in
      if startswith (lstrip (upto (indent + 1) line)) (py "#") then
        continue (spaces indent ++ lstrip line)
      else if match line with [] => true | _ => false end
              || (match strip (upto (indent + 1) line) with [] => false | _ => true end
                  && negb linebreak) then
        Return source
      else continue line
  end.

Definition source_fuel (fuel : nat) (self : Frame V) : outcome str :=
  let path := co_filename (f_code (frame self)) in
  let ln := co_firstlineno (f_code (frame self)) in
  let line := getline self ln in
  match line with
  | [] => Return (py "<not avaliable>")
  | _ =>
      let indent := len line - len (lstrip line) in
      let source := from indent line in
      '(ln, source) ← source_decorators fuel self indent ln line source;
      source ← source_body fuel self path indent ln false source;
      Return (rstrip source)
  end.

(** Frame.source; a loop iteration reads one more line of the file, so
    one unit of fuel per line and one to spare is enough. *)
Definition source (self : Frame V) : outcome str :=
  source_fuel (S (length (linecache_getlines (co_filename (f_code (frame self)))))) self.

(** frames_from_traceback: [while tb: frames.append(...); tb = tb.tb_next]. *)
Fixpoint frames_from_traceback_loop (tb : traceback V) (frames : list (Frame V))
    : list (Frame V) :=
  match tb with
  | TbNone => frames
  | Tb fr ln next => frames_from_traceback_loop next (frames ++ [Frame_init fr (Some ln)])
  end.

Definition frames_from_traceback (tb : traceback V) : list (Frame V) :=
  frames_from_traceback_loop tb [].

(** *** class Explorer *)

Record Explorer := {
  intro : str;
  msg : str;
  frames : list (Frame V);
  index : Z;
  prompt : str;
  lastcmd : str          (* cmd.Cmd.lastcmd *)
}.

Definition set_index (i : Z) (self : Explorer) : Explorer :=
  {| intro := intro self; msg := msg self; frames := frames self;
     index := i; prompt := prompt self; lastcmd := lastcmd self |}.

Definition set_lastcmd (l : str) (self : Explorer) : Explorer :=
  {| intro := intro self; msg := msg self; frames := frames self;
     index := index self; prompt := prompt self; lastcmd := l |}.

(** The banner text: the words of [intro] wrapped at [maxlen] columns. *)
Definition maxlen : Z := 44.

Fixpoint wrap_words (words : list str) (lines : list str) (nextline : str)
    : list str * str :=
  match words with
  | [] => (lines, nextline)
  | word :: rest =>
      if match nextline with [] => true | _ => false end
         || (maxlen <? len nextline + 1 + len word)
      then wrap_words rest (lines ++ [nextline]) word
      else wrap_words rest lines (nextline ++ py " " ++ word)
  end.

(** The box glyphs: the UTF-8 bytes of the box-drawing characters
    U+250C, U+2510, U+2514, U+2518, U+2500 and U+2502. *)
Definition box (b : nat) : str := [chr 226; chr 148; chr b].

(** The six glyph variables after the [if]: a variable the taken branch
    leaves unassigned is [None]. *)
Record glyphs := {
  ul : option str; ur : option str; ll : option str;
  lr : option str; hh : option str; vv : option str
}.

Definition banner_glyphs : glyphs :=
  if richoutput then
    {| ul := Some (box 140); ur := Some (box 144); ll := Some (box 148);
       lr := Some (box 152); hh := Some (box 128); vv := Some (box 130) |}
  else
    (* ul = ul = ll = lr = '+' *)
    {| ul := Some (py "+"); ur := None; ll := Some (py "+");
       lr := Some (py "+"); hh := Some (py "-"); vv := Some (py "|") |}.

(** Explorer.__init__ *)
Definition Explorer_init (msg_ : str) (frames_ : list (Frame V)) (intro_ : str)
    : outcome Explorer :=
  let lines := [py "WELCOME TO TRACEBACK EXPLORER."] in
  let '(lines, nextline) := wrap_words (split intro_) lines [] in
  let lines := lines ++ [nextline] in
  let g := banner_glyphs in
  ul_ ← local "ul" (ul g);
  hh_ ← local "hh" (hh g);
  ur_ ← local "ur" (ur g);
  let top := ul_ ++ times hh_ (Z.to_nat (maxlen + 2)) ++ ur_ in
  vv_ ← match lines with [] => Return [] | _ => local "vv" (vv g) end;
  let middle := map (fun line => vv_ ++ ljust (maxlen + 2) (py " " ++ line) ++ vv_) lines in
  ll_ ← local "ll" (ll g);
  hh_ ← local "hh" (hh g);
  lr_ ← local "lr" (lr g);
  let bottom := ll_ ++ times hh_ (Z.to_nat (maxlen + 2)) ++ lr_ in
  Return {| intro := join [LF] ([top] ++ middle ++ [bottom]);
            msg := msg_;
            frames := frames_;
            index := Z.of_nat (length frames_) - 1;
            prompt := LF :: py ">>> ";
            lastcmd := [] |}.

(** Commands run on the session, print to standard output, and return
    or raise: a state, writer and error monad. *)
Definition M (A : Type) : Type := Explorer -> str * Explorer * outcome A.

#[global] Instance M_ret : MRet M := fun A a self => ([], self, Return a).

#[global] Instance M_bind : MBind M := fun A B k m self =>
  let '(out, self', r) := m self in
  match r with
  | Return a => let '(out', self'', r') := k a self' in (out ++ out', self'', r')
  | Raise e => (out, self', Raise e)
  | OutOfFuel => (out, self', OutOfFuel)
  end.

Definition lift {A} (o : outcome A) : M A := fun self => ([], self, o).
Definition write (s : str) : M unit := fun self => (s, self, Return tt).
Definition print (s : str) : M unit := write (s ++ [LF]).
Definition get : M Explorer := fun self => ([], self, Return self).
Definition put (self' : Explorer) : M unit := fun _ => ([], self', Return tt).

Fixpoint for_each {A} (l : list A) (body : A -> M unit) : M unit :=
  match l with
  | [] => mret tt
  | a :: r => body a ≫= fun _ => for_each r body
  end.

Fixpoint enumerate_from {A} (i : Z) (l : list A) : list (Z * A) :=
  match l with
  | [] => []
  | a :: r => (i, a) :: enumerate_from (i + 1) r
  end.

Definition show_context : M unit :=
  self ← get;
  for_each (enumerate_from 0 (frames self)) (fun '(i, f) =>
    print ((if i =? index self then py "*" else py " ") ++ from 1 (context f))) ≫= fun _ =>
  print (py " " ++ py " " ++ msg self).

Definition do_s (arg : str) : M bool :=
  self ← get;
  let shown := slice_to (frames self) (index self + 1) in
  for_each shown (fun f => print (where_ f)) ≫= fun _ =>
  f ← lift (local "f" (last shown));
  src ← lift (source f);
  print src ≫= fun _ =>
  mret false.

Definition do_l (arg : str) : M bool :=
  show_context ≫= fun _ => mret false.

Definition do_q (arg : str) : M bool :=
  print (py "quit.") ≫= fun _ => mret true.

Definition do_u (arg : str) : M bool :=
  self ← get;
  if 0 <? index self then
    put (set_index (index self - 1) self) ≫= fun _ =>
    show_context ≫= fun _ => mret false
  else mret false.

Definition do_d (arg : str) : M bool :=
  self ← get;
  if index self <? Z.of_nat (length (frames self)) - 1 then
    put (set_index (index self + 1) self) ≫= fun _ =>
    show_context ≫= fun _ => mret false
  else mret false.

(** [max(len(name) for name in names)] *)
Definition max_len (names : list str) : outcome Z :=
  match names with
  | [] => Raise (ValueError "max() arg is an empty sequence")
  | n :: r => Return (fold_left (fun m x => if m <? len x then len x else m) r (len n))
  end.

Definition do_w (arg : str) : M bool :=
  self ← get;
  f ← lift (getitem (frames self) (index self));
  let fr := frame f in
  width ← lift (max_len (map fst (f_locals fr)));
  for_each (f_locals fr) (fun '(name, val) =>
    s ← lift (py_str val);
    print (py "  " ++ rjust width name ++ py " : " ++ s)) ≫= fun _ =>
  mret false.

Definition do_p (arg : str) : M bool :=
  self ← get;
  f ← lift (getitem (frames self) (index self));
  let fr := frame f in
  v ← lift (py_eval arg (f_globals fr) (f_locals fr));
  s ← lift (py_str v);
  print s ≫= fun _ => mret false.

Definition do_pp (arg : str) : M bool :=
  self ← get;
  f ← lift (getitem (frames self) (index self));
  let fr := frame f in
  v ← lift (py_eval arg (f_globals fr) (f_locals fr));
  s ← lift (py_pformat v);
  print s ≫= fun _ => mret false.

(** **** What the class inherits from cmd.Cmd *)

Definition do_help (arg : str) : M bool :=
  write (Cmd_do_help arg) ≫= fun _ => mret false.

Definition Cmd_default (line : str) : M bool :=
  write (py "*** Unknown syntax: " ++ line ++ [LF]) ≫= fun _ => mret false.

Definition identchar (c : ascii) : bool :=
  let n := nat_of_ascii c in
  ((97 <=? n)%nat && (n <=? 122)%nat) || ((65 <=? n)%nat && (n <=? 90)%nat)
  || ((48 <=? n)%nat && (n <=? 57)%nat) || (n =? 95)%nat.

Fixpoint span_ident (s : str) : str * str :=
  match s with
  | c :: r => if identchar c then let '(a, b) := span_ident r in (c :: a, b) else ([], s)
  | [] => ([], [])
  end.

(** cmd.Cmd.parseline; the class has no [do_shell]. *)
Definition Cmd_parseline (line : str) : option str * option str * str :=
  let line := strip line in
  let scan (line : str) :=
    let '(cmd, rest) := span_ident line in (Some cmd, Some (strip rest), line) in
  match line with
  | [] => (None, None, line)
  | c :: r =>
      if Ascii.eqb c "?"%char then scan (py "help " ++ r)
      else if Ascii.eqb c "!"%char then (None, None, line)
      else scan line
  end.

(** [getattr(self, 'do_' + cmd)]; [None] stands for AttributeError. *)
Definition handler (cmd : str) : option (str -> M bool) :=
  if eqb cmd (py "s") then Some do_s
  else if eqb cmd (py "l") then Some do_l
  else if eqb cmd (py "q") then Some do_q
  else if eqb cmd (py "u") then Some do_u
  else if eqb cmd (py "d") then Some do_d
  else if eqb cmd (py "w") then Some do_w
  else if eqb cmd (py "p") then Some do_p
  else if eqb cmd (py "pp") then Some do_pp
  else if eqb cmd (py "help") then Some do_help
  else None.

(** cmd.Cmd.onecmd, with the method [self.onecmd] that cmd.Cmd.emptyline
    calls passed in. *)
Definition Cmd_onecmd (self_onecmd : str -> M bool) (line : str) : M bool :=
  let '(cmd, arg, line) := Cmd_parseline line in
  match line with
  | [] =>
      (* emptyline *)
      self ← get;
      match lastcmd self with
      | [] => mret false
      | _ => self_onecmd (lastcmd self)
      end
  | _ =>
      match cmd, arg with
      | Some cmd, Some arg =>
          self ← get;
          put (set_lastcmd (if eqb line (py "EOF") then [] else line) self) ≫= fun _ =>
          match cmd with
          | [] => Cmd_default line
          | _ =>
              match handler cmd with
              | None => Cmd_default line
              | Some func => func arg
              end
          end
      | _, _ => Cmd_default line
      end
  end.

(** Explorer.onecmd: [try: return cmd.Cmd.onecmd(self, text)] with
    [except Exception, e: print '%s in %r:' % (..., text), e].  The
    print statement writes its first item, then a blank, and only then
    converts [e] with [str]: when that conversion raises, the exception
    leaves [onecmd] with the line begun. *)
Definition except_Exception (text : str) (res : str * Explorer * outcome bool)
    : str * Explorer * outcome bool :=
  let '(out, self', r) := res in
  match r with
  | Raise e =>
      if exc_is_Exception e
      then
        match exc_str e with
        | Text s =>
            (out ++ exc_class e ++ py " in " ++ repr_str text ++ py ":" ++ py " " ++ s ++ [LF],
             self', Return false)
        | Fails e' =>
            (out ++ exc_class e ++ py " in " ++ repr_str text ++ py ":" ++ py " ",
             self', Raise e')
        end
      else (out, self', Raise e)
  | _ => (out, self', r)
  end.

Fixpoint onecmd_fuel (fuel : nat) (text : str) : M bool :=
  match fuel with
  | O => lift OutOfFuel
  | S fuel' => fun self =>
      except_Exception text (Cmd_onecmd (onecmd_fuel fuel') text self)
  end.

(** An empty line re-enters [onecmd] once, with the last command, which
    is never itself an empty line. *)
Definition onecmd : str -> M bool := onecmd_fuel 2.

(** cmd.Cmd.cmdloop over the lines read so far: the intro, then prompt,
    command, and so on until a command returns a true value. *)
Fixpoint cmdloop_lines (inputs : list str) : M unit :=
  match inputs with
  | [] => mret tt
  | line :: rest =>
      self ← get;
      write (prompt self) ≫= fun _ =>
      stop ← onecmd line;
      if stop : bool then mret tt else cmdloop_lines rest
  end.

Definition cmdloop (inputs : list str) : M unit :=
  self ← get;
  write (intro self ++ [LF]) ≫= fun _ => cmdloop_lines inputs.

(** *** write_html *)

(** The sink [out]: the sequence of strings written to it. *)
Definition W (A : Type) : Type := list str * outcome A.

#[global] Instance W_ret : MRet W := fun A a => ([], Return a).

#[global] Instance W_bind : MBind W := fun A B k m =>
  let '(ws, r) := m in
  match r with
  | Return a => let '(ws', r') := k a in (ws ++ ws', r')
  | Raise e => (ws, Raise e)
  | OutOfFuel => (ws, OutOfFuel)
  end.

Definition out_write (s : str) : W unit := ([s], Return tt).
Definition liftW {A} (o : outcome A) : W A := ([], o).

Fixpoint for_eachW {A} (l : list A) (body : A -> W unit) : W unit :=
  match l with
  | [] => mret tt
  | a :: r => body a ≫= fun _ => for_eachW r body
  end.

(** [.replace('<','&lt;').replace('>','&gt;')] *)
Definition escape (s : str) : str :=
  replace ">"%char (py "&gt;") (replace "<"%char (py "&lt;") s).

(** The substitution
    [re.sub(r'\b(def|if|elif|else|for|while|with|in|return)\b', r'<b>\1</b>', s)]:
    a left-to-right scan; at a word boundary the alternatives are tried
    in order, each needing a word boundary after it. *)
Definition keywords : list str :=
  map py ["def"; "if"; "elif"; "else"; "for"; "while"; "with"; "in"; "return"]%string.

Definition wordchar (c : ascii) : bool := identchar c.   (* \w *)

Definition match_keyword (s : str) : option str :=
  List.find (fun kw =>
               startswith s kw
               && match skipn (length kw) s with
                  | c :: _ => negb (wordchar c)
                  | [] => true
                  end) keywords.

(** [prev] tells whether the byte before [s] is a word byte; [skip]
    counts the bytes of [s] still covered by the last match. *)
Fixpoint sub_keywords (prev : bool) (skip : nat) (s : str) : str :=
  match s with
  | [] => []
  | c :: r =>
      match skip with
      | S k => sub_keywords (wordchar c) k r
      | O =>
          match (if prev then None else match_keyword s) with
          | Some kw =>
              py "<b>" ++ kw ++ py "</b>" ++ sub_keywords (wordchar c) (length kw - 1) r
          | None => c :: sub_keywords (wordchar c) 0 r
          end
      end
  end.

Definition bold_keywords (s : str) : str := sub_keywords false 0 s.

(** The opening tag of the emphasis span, [<span class="error">]. *)
Definition span_error : str := py "<span class=" ++ quote ++ py "error" ++ quote ++ py ">".

(** One line of the reconstructed source, as written. *)
Definition html_source_line (line : str) : str :=
  let marked := startswith line (py ">") in
  let line := if marked then from 1 line else line in
  let line := bold_keywords (escape line) in
  if marked then span_error ++ py " " ++ line ++ py "</span>" ++ [LF]
  else line ++ [LF].

(** One row of the table of locals; the bare [except] turns any
    exception of [str(val)] into the text ERROR. *)
Definition html_local (kv : str * V) : W unit :=
  let '(key, val) := kv in
  val ← liftW (match py_str val with
               | Return s => Return (escape s)
               | Raise _ => Return (py "ERROR")
               | OutOfFuel => OutOfFuel
               end);
  out_write (py "<tr><td>" ++ key ++ py "</td><td>" ++ val ++ py "</td></tr>" ++ [LF]).

Definition html_frame (f : Frame V) : W unit :=
  head ← liftW (getitem (splitlines (context f)) 0);
  out_write (head ++ [LF]) ≫= fun _ =>
  src ← liftW (source f);
  for_eachW (splitlines src) (fun line => out_write (html_source_line line)) ≫= fun _ =>
  out_write [LF; LF] ≫= fun _ =>
  out_write (py "<table border=" ++ quote ++ py "1" ++ quote ++ py " style=" ++ quote
             ++ py "border:none; margin:0px; padding:0px;" ++ quote ++ py ">" ++ [LF]) ≫= fun _ =>
  for_eachW (f_locals (frame f)) html_local ≫= fun _ =>
  out_write (py "</table>" ++ [LF]) ≫= fun _ =>
  out_write (py "<hr/>" ++ [LF]).

Definition write_html (exc_info : V * V * traceback V) : W unit :=
  let '(exc_type, exc_value, tb) := exc_info in
  let frames := frames_from_traceback tb in
  out_write (py "<span class=" ++ quote ++ py "info" ++ quote ++ py ">") ≫= fun _ =>
  out_write (LF :: py "<hr/>") ≫= fun _ =>
  out_write (py "<b>EXHAUSTIVE POST-MORTEM DUMP FOLLOWS</b>" ++ [LF]) ≫= fun _ =>
  out_write (join [LF] ([py_repr exc_value] ++ map context frames)) ≫= fun _ =>
  out_write (py "<hr/>" ++ [LF]) ≫= fun _ =>
  for_eachW (rev frames) html_frame ≫= fun _ =>
  out_write (py "</span>").

End Debug.

Arguments Explorer V : clear implicits.
Arguments M V A : clear implicits.

(** ** The rest of the debug module *)

Section DebugRest.

Context {V : Type} `{!Runtime V}.



(** The interpreter's stack of active frames, innermost first, linked by
    [f_back]; [NoFrame] is the [None] after the outermost frame. *)
Inductive callstack : Type :=
| NoFrame
| Active (fr : pyframe V) (f_back : callstack).

(** sys._getframe(depth), called by a function whose own frame is the
    top of [stack]: [depth] links are followed while there is a frame. *)
Fixpoint sys_getframe_walk (f : callstack) (depth : nat) : callstack :=
  match depth, f with
  | S d, Active _ back => sys_getframe_walk back d
  | _, _ => f
  end.

(** The argument is converted to a C [int] first: a number outside
    that range raises OverflowError (the wording is the one of the
    range check; for still larger numbers the interpreter words it
    differently).  A negative depth gives the caller's own frame. *)
Definition INT_MIN : Z := - 2 ^ 31.
Definition INT_MAX : Z := 2 ^ 31 - 1.

Definition OverflowError (m : string) : exc := Exc (py "OverflowError") true (Text (py m)).

Definition sys_getframe (stack : callstack) (depth : Z) : outcome (pyframe V * callstack) :=
  if depth <? INT_MIN then Raise (OverflowError "signed integer is less than minimum")
  else if INT_MAX <? depth then Raise (OverflowError "signed integer is greater than maximum")
  else
    match sys_getframe_walk stack (Z.to_nat depth) with
    | Active fr back => Return (fr, back)
    | NoFrame => Raise (ValueError "call stack is not deep enough")
    end.

(** The loop of frames_from_callstack: [while frame: ...; frame = frame.f_back]. *)
Fixpoint frames_from_callstack_loop (f : callstack) (frames : list (Frame V))
    : list (Frame V) :=
  match f with
  | NoFrame => frames
  | Active fr back => frames_from_callstack_loop back (frames ++ [Frame_init fr None])
  end.

(** frames_from_callstack, run with its own frame on top of [stack];
    only the ValueError of sys._getframe is caught. *)
Definition frames_from_callstack (stack : callstack) (depth : Z)
    : outcome (list (Frame V)) :=
  match sys_getframe stack depth with
  | Return (fr, back) => Return (rev (frames_from_callstack_loop (Active fr back) []))
  | Raise e =>
      if PyStr.eqb (exc_class e) (py "ValueError") then Return [] else Raise e
  | OutOfFuel => OutOfFuel
  end.

(** The two entry points: build the session, run the command loop on
    the lines read, and hand back what was printed. *)
Definition died_intro : str :=
  [LF] ++ py "    Your program has died. The traceback exporer allows you to examine its"
  ++ [LF] ++ py "    post-mortem state to figure out why this happened. Type 'help' for an"
  ++ [LF] ++ py "    overview of commands to get going.".

Definition suspended_intro : str :=
  [LF] ++ py "    Your program is suspended. The traceback explorer allows you to examine"
  ++ [LF] ++ py "    its current state and even alter it. Closing the explorer will resume"
  ++ [LF] ++ py "    program execution.".

Definition run_session (session : outcome (Explorer V)) (inputs : list str)
    : str * outcome unit :=
  match session with
  | Return self => let '(out, _, r) := cmdloop inputs self in (out, r)
  | Raise e => ([], Raise e)
  | OutOfFuel => ([], OutOfFuel)
  end.

Definition traceback_explorer (exc_info : V * V * traceback V) (inputs : list str)
    : str * outcome unit :=
  let '(exc_type, exc_value, tb) := exc_info in
  run_session (Explorer_init (py_repr exc_value) (frames_from_traceback tb) died_intro) inputs.

(** breakpoint, run with its own frame on top of [stack]; [callee] is
    the frame that the call of frames_from_callstack creates. *)
Definition breakpoint (callee : pyframe V) (stack : callstack) (inputs : list str)
    : str * outcome unit :=
  run_session (frames ← frames_from_callstack (Active callee stack) 2;
               Explorer_init (py "Suspended.") frames suspended_intro) inputs.

(** What name completion asks of the interpreter. *)
Class Introspect := {
  py_dir : V -> outcome (list str);       (* dir(obj) *)
  py_getattr : V -> str -> outcome V      (* getattr(obj, name) *)
}.

Context `{!Introspect}.

(** [d.update(other)] *)
Definition dict_update (d : gmap str V) (other : list (str * V)) : gmap str V :=
  foldl (fun d kv => <[kv.1 := kv.2]> d) d other.

(** [text.split('.', 1)] when there is a dot in [text]. *)
Fixpoint split_dot (text : str) : option (str * str) :=
  match text with
  | [] => None
  | c :: r =>
      if Ascii.eqb c "."%char then Some ([], r)
      else match split_dot r with
           | Some (a, b) => Some (c :: a, b)
           | None => None
           end
  end.

(** The attributes of an object that can be read: the inner [for] loop
    with its bare [except]. *)
Fixpoint readable_attrs (obj : V) (names : list str) (objs : gmap str V)
    : outcome (gmap str V) :=
  match names with
  | [] => Return objs
  | attrname :: rest =>
      match py_getattr obj attrname with
      | Return v => readable_attrs obj rest (<[attrname := v]> objs)
      | Raise _ => readable_attrs obj rest objs
      | OutOfFuel => OutOfFuel
      end
  end.

(** The [while '.' in text] loop of Explorer.completedefault.
    [dir(obj)] is outside the [try]: what it raises leaves
    completedefault.  The names come in the order of the map's keys: the
    order in which a Python dict yields its keys is not modelled. *)
Fixpoint complete_loop (fuel : nat) (objs : gmap str V) (base text : str)
    : outcome (list str) :=
  match split_dot text with
  | None =>
      Return (map (fun name => base ++ name)
                  (List.filter (fun name => startswith name text)
                               (map fst (map_to_list objs))))
  | Some (objname, attr) =>
      match fuel with
      | O => OutOfFuel
      | S fuel' =>
          match objs !! objname with
          | None => Return []
          | Some obj =>
              names ← py_dir obj;
              objs' ← readable_attrs obj names ∅;
              complete_loop fuel' objs' (base ++ objname ++ py ".") attr
          end
      end
  end.

(** Explorer.completedefault; every turn of the loop removes a dot from
    [text]. *)
Definition completedefault (text : str) (self : Explorer V) : outcome (list str) :=
  f ← getitem (frames self) (index self);
  let fr := frame f in
  let objs := dict_update (dict_update ∅ (f_globals fr)) (f_locals fr) in
  complete_loop (S (length text)) objs [] text.

End DebugRest.

Arguments callstack V : clear implicits.
Arguments Introspect V : clear implicits.

(** ** The config module *)

Module Config.

(** What attribute lookup finds for a name on the class of the
    configuration object (Config, ModuleType, object). *)
Inductive class_attr (V : Type) : Type :=
| ClassVar (v : V)         (* a class variable, such as [__doc__]: the object itself *)
| Method (v : V)           (* a function of the class, such as [__str__]: every
                              lookup binds it anew, so the result [v] is
                              identical to no object there was before *)
| DataDescriptor (v : V).  (* [__class__], [__dict__]: the descriptor answers,
                              before the attributes of the instance *)
Arguments ClassVar {V} v.
Arguments Method {V} v.
Arguments DataDescriptor {V} v.

(** The class of the object.  An assignment or deletion through a data
    descriptor raises or is accepted; an accepted one is taken to change
    nothing (as [__class__] set to the class the object has): replacing
    the class of the object is outside the model. *)
Class Klass (V : Type) := {
  class_lookup : string -> option (class_attr V);
  descr_set : string -> V -> outcome unit;
  descr_delete : string -> outcome unit
}.

Section Config.

(** Attribute values; two values are the same object ([is]) when equal. *)
Context {V : Type} `{EqDecision V} `{!Klass V}.

(** The attributes of the configuration object itself (its [__dict__]),
    by name. *)
Abbreviation config := (gmap string V).




(** [getattr(self, k, EMPTY)], [None] standing for [EMPTY]: a data
    descriptor of the class, else the attribute of the instance, else
    what the class has under the name. *)
Definition getattr (self : config) (k : string) : option V :=
  match class_lookup k with
  | Some (DataDescriptor v) => Some v
  | Some (ClassVar v) | Some (Method v) =>
      match self !! k with
      | Some w => Some w
      | None => Some v
      end
  | None => self !! k
  end.

(** Whether [getattr(self, k, EMPTY)] makes a new object: a method
    bound by this very lookup. *)
Definition fresh (self : config) (k : string) : bool :=
  match class_lookup k, self !! k with
  | Some (Method _), None => true
  | _, _ => false
  end.

(** [old_v is new_v] for the [old_v] that [getattr(self, k, EMPTY)] gives. *)
Definition unchanged (self : config) (k : string) (new_v : V) : bool :=
  negb (fresh self k) && bool_decide (getattr self k = Some new_v).

(** object.__setattr__ and object.__delattr__: through the data
    descriptor when the class has one under the name, else on the
    attributes of the instance; deleting an attribute that the instance
    does not have raises. *)
Definition object_setattr (self : config) (k : string) (v : V) : config * outcome unit :=
  match class_lookup k with
  | Some (DataDescriptor _) => (self, descr_set k v)
  | _ => (<[k := v]> self, Return tt)
  end.


(** Config.__call__ up to its [yield]: the loop over [data.items()],
    inside the [try]; [old[k]] is assigned before the attribute is set. *)
Fixpoint override (items : list (string * V)) (self : config)
    (old : gmap string (option V)) : config * gmap string (option V) * outcome unit :=
  match items with
  | [] => (self, old, Return tt)
  | (k, new_v) :: rest =>
      let old_v := getattr self k in
      if unchanged self k new_v then override rest self old
      else
        match object_setattr self k new_v with
        | (self', Return _) => override rest self' (<[k := old_v]> old)
        | (self', r) => (self', <[k := old_v]> old, r)
        end
  end.





End Config.
End Config.

(** ** The rest of the config module *)

Module ConfigRest.
Import Config.

Section ConfigRest.

Context {V : Type}.

Variable repr : V -> string.    (* '{!r}'.format(v) *)

(** The order of [sorted] on the items: the names are distinct, so the
    pairs are ordered by their names. *)
Definition by_name (a b : string * V) : Prop := String.le a.1 b.1.

#[global] Instance by_name_dec : RelDecision by_name := fun a b => decide (String.le a.1 b.1).

(** [sorted(self.__dict__.items())] without the names that start with
    an underscore. *)
Definition shown_items (self : gmap string V) : list (string * V) :=
  List.filter (fun kv => negb (String.prefix "_" kv.1))
              (merge_sort by_name (map_to_list self)).

(** Config.__str__ *)
Definition __str__ (self : gmap string V) : string :=
  "configuration: "
  +:+ String.concat ", " (map (fun kv => kv.1 +:+ "=" +:+ repr kv.2) (shown_items self)).

End ConfigRest.

End ConfigRest.

(** ** Vocabulary of the statements about the configuration *)

Module ConfigSpec.
Import Config.

Section ConfigSpec.

Context {V : Type} `{EqDecision V} `{!Klass V}.





Definition recorded (data self : gmap string V) : gmap string (option V) :=
  (override (map_to_list data) self ∅).1.2.

End ConfigSpec.
End ConfigSpec.

(** * Vocabulary of the statements *)

Section DebugSpec.

Context {V : Type} `{!Runtime V}.

(** The links of a propagation chain, oldest call first. *)
Fixpoint tb_links (tb : traceback V) : list (pyframe V * Z) :=
  match tb with
  | TbNone => []
  | Tb fr ln next => (fr, ln) :: tb_links next
  end.

(** A computation that never touches the session. *)
Definition readonly {A} (m : M V A) : Prop := forall self, (m self).1.2 = self.

(** What [show_context] prints. *)
Definition context_lines (self : Explorer V) : str :=
  flat_map (fun p => (if fst p =? index self then py "*" else py " ")
                       ++ from 1 (context (snd p)) ++ [LF])
           (enumerate_from 0 (frames self))
  ++ py "  " ++ msg self ++ [LF].

(** The session invariant on the focus. *)
Definition focus_ok (self : Explorer V) : Prop :=
  0 <= index self < Z.of_nat (length (frames self)).

(** [cmd.Cmd] keeps in [lastcmd] either nothing or a line that parses
    to a command, so the re-entry of [onecmd] on an empty line is never
    nested: two levels are all the levels there are. *)
Definition lastcmd_ok (self : Explorer V) : Prop :=
  lastcmd self = [] \/ (Cmd_parseline (lastcmd self)).2 <> [].

(** What one command may do to the session: chain, message and prompt
    stay, the focus stays in range, and a command that raises has not
    moved it. *)
Definition step_ok {A} (self : Explorer V) (res : str * Explorer V * outcome A) : Prop :=
  frames res.1.2 = frames self /\ msg res.1.2 = msg self
  /\ prompt res.1.2 = prompt self
  /\ (focus_ok self -> focus_ok res.1.2)
  /\ (forall e, res.2 = Raise e -> index res.1.2 = index self).

(** A write that opens an error span. *)
Definition is_error_span (w : str) : bool := startswith w span_error.

Definition count_error_spans (ws : list str) : nat := length (List.filter is_error_span ws).

(** A text without line break. *)
Definition breakfree (t : str) : Prop := Forall (fun c => c <> LF /\ c <> CR) t.

(** A text of blanks only. *)
Definition blank (t : str) : Prop := Forall (fun c => isspace c = true) t.

Definition unlines (ts : list str) : str := concat (map (fun t => t ++ [LF]) ts).

(** The lines that carry the sentinel. *)
Definition marked (l : str) : bool := startswith l (py ">").

(** An indented line: [w] blanks, a text, the line break. *)
Definition indented (w : nat) (h : str) : str := repeat " "%char w ++ h ++ [LF].

(** The texts of decorator lines. *)
Definition decorator (h : str) : Prop := exists h', h = "@"%char :: h'.

(** A body line: a text and its line break, blank up to and including
    the column of the definition. *)
Definition body_line (w : nat) (l : str) : Prop :=
  exists t, l = t ++ [LF] /\ breakfree t /\ blank (firstn (S w) l).

(** What the scanning loop appends for the body lines, [n] lines
    preceding them in the file. *)
Fixpoint body_chunks (cursor : Z) (w n : nat) (body : list str) : list str :=
  match body with
  | [] => []
  | l :: r =>
      (if Z.of_nat (S n) =? cursor then py ">" ++ skipn (S w) l else skipn w l)
      :: body_chunks cursor w (S n) r
  end.

(** The continuation flag after the body lines. *)
Fixpoint final_linebreak (lb : bool) (body : list str) : bool :=
  match body with
  | [] => lb
  | l :: r => final_linebreak (endswith (rstrip l) (py "\")) r
  end.

(** The line after the body ends the block: the file ends there, or the
    line is not blank up to the definition column (and neither a comment
    there nor a continuation). *)
Definition ends_block (w : nat) (lb : bool) (rest : list str) : bool :=
  match rest with
  | [] => true
  | r :: _ =>
      negb (startswith (lstrip (firstn (S w) r)) (py "#"))
      && (match r with [] => true | _ => false end
          || (match strip (firstn (S w) r) with [] => false | _ => true end && negb lb))
  end.

End DebugSpec.

Section DebugRestSpec.

Context {V : Type} `{!Runtime V} `{!Introspect V}.

(** The frames of a call stack, innermost first. *)
Fixpoint stack_frames (f : callstack V) : list (pyframe V) :=
  match f with
  | NoFrame => []
  | Active fr back => fr :: stack_frames back
  end.


(** A command that does not ask the loop to stop. *)
Definition goes_on (m : M V bool) : Prop :=
  forall self, (m self).2 <> Return true.


(** One printed line of the locals overview: the name right-aligned in
    a column of width [w]. *)
Definition local_row (w : Z) (nv : str * V) (row : str) : Prop :=
  exists s, py_str nv.2 = Return s /\
    row = py "  " ++ spaces (w - len nv.1) ++ nv.1 ++ py " : " ++ s ++ [LF].


(** The text of a written line without the emphasis tags [<b>] and
    [</b>]. *)
Fixpoint strip_tags (s : str) : str :=
  match s with
  | [] => []
  | c :: r =>
      if startswith s (py "<b>") then
        match r with _ :: _ :: r' => strip_tags r' | _ => [] end
      else if startswith s (py "</b>") then
        match r with _ :: _ :: _ :: r' => strip_tags r' | _ => [] end
      else c :: strip_tags r
  end.


(** A write that ends its line. *)
Definition ends_line (w : str) : Prop := last w = Some LF.

(** A row of the table of locals for the variable [kv]: its name, and a
    value cell without markup. *)
Definition table_row (kv : str * V) (row : str) : Prop :=
  exists cell,
    row = py "<tr><td>" ++ kv.1 ++ py "</td><td>" ++ cell ++ py "</td></tr>" ++ [LF]
    /\ ~ In "<"%char cell /\ ~ In ">"%char cell
    /\ match py_str kv.2 with
       | Return s => cell = escape s
       | _ => cell = py "ERROR"
       end.

End DebugRestSpec.

(** * Verification *)

Section DebugFacts.

Context {V : Type} `{!Runtime V}.

Lemma frames_from_traceback_loop_app (tb : traceback V) (acc : list (Frame V)) :
  frames_from_traceback_loop tb acc
  = acc ++ map (fun l => Frame_init (fst l) (Some (snd l))) (tb_links tb).
Proof.
  revert acc. induction tb as [|fr ln next IH]; intros acc; simpl.
  - now rewrite app_nil_r.
  - rewrite IH, <- app_assoc. reflexivity.
Qed.

(** ** The command monad *)

Lemma bind_run {A B} (m : M V A) (k : A -> M V B) (self : Explorer V) :
  (m ≫= k) self =
  let '(out, self', r) := m self in
  match r with
  | Return a => let '(out', self'', r') := k a self' in (out ++ out', self'', r')
  | Raise e => (out, self', Raise e)
  | OutOfFuel => (out, self', OutOfFuel)
  end.
Proof. reflexivity. Qed.

Lemma readonly_ret {A} (a : A) : readonly (V := V) (mret a).
Proof. intros self. reflexivity. Qed.

Lemma readonly_lift {A} (o : outcome A) : readonly (V := V) (lift o).
Proof. intros self. reflexivity. Qed.

Lemma readonly_write s : readonly (V := V) (write s).
Proof. intros self. reflexivity. Qed.

Lemma readonly_print s : readonly (V := V) (print s).
Proof. intros self. reflexivity. Qed.

Lemma readonly_get : readonly (V := V) get.
Proof. intros self. reflexivity. Qed.

Lemma readonly_bind {A B} (m : M V A) (k : A -> M V B) :
  readonly m -> (forall a, readonly (k a)) -> readonly (m ≫= k).
Proof.
  intros Hm Hk self. rewrite bind_run.
  specialize (Hm self). destruct (m self) as [[out self'] r]. simpl in Hm. subst self'.
  destruct r as [a| |]; try reflexivity.
  specialize (Hk a self). destruct (k a self) as [[out' self''] r']. exact Hk.
Qed.

Lemma readonly_for_each {A} (l : list A) (body : A -> M V unit) :
  (forall a, readonly (body a)) -> readonly (for_each l body).
Proof.
  intros Hb. induction l as [|a l IH]; simpl.
  - apply readonly_ret.
  - apply readonly_bind; [apply Hb | intros _; exact IH].
Qed.

Lemma for_each_print {A} (l : list A) (g : A -> str) (self : Explorer V) :
  for_each l (fun a => print (g a)) self
  = (flat_map (fun a => g a ++ [LF]) l, self, Return tt).
Proof.
  induction l as [|a l IH]; simpl; [reflexivity|].
  rewrite bind_run. simpl. rewrite IH. reflexivity.
Qed.

Lemma for_each_ext {A} (l : list A) (body body' : A -> M V unit) :
  (forall a, body a = body' a) -> for_each l body = for_each l body'.
Proof.
  intros E. induction l as [|a l IH]; simpl; [reflexivity|].
  now rewrite E, IH.
Qed.

Lemma show_context_run (self : Explorer V) :
  show_context self = (context_lines self, self, Return tt).
Proof.
  unfold show_context. rewrite bind_run. cbn [get].
  rewrite bind_run.
  rewrite (for_each_ext _ _
    (fun p => print ((if fst p =? index self then py "*" else py " ")
                       ++ from 1 (context (snd p))))).
  2:{ intros [i f]. reflexivity. }
  rewrite for_each_print. cbn [print write].
  unfold context_lines. rewrite app_nil_l. f_equal. f_equal. f_equal.
  apply flat_map_ext. intros [i f]. cbn [fst snd]. now rewrite <- app_assoc.
Qed.

Lemma do_l_run arg (self : Explorer V) :
  do_l arg self = (context_lines self, self, Return false).
Proof.
  unfold do_l. rewrite bind_run, show_context_run. cbn. now rewrite app_nil_r.
Qed.

Lemma do_q_run arg (self : Explorer V) :
  do_q arg self = (py "quit." ++ [LF], self, Return true).
Proof. reflexivity. Qed.

Lemma do_u_run arg (self : Explorer V) :
  do_u arg self =
  if 0 <? index self
  then let self' := set_index (index self - 1) self in
       (context_lines self', self', Return false)
  else ([], self, Return false).
Proof.
  unfold do_u. rewrite bind_run. cbn [get].
  destruct (0 <? index self); [|reflexivity].
  rewrite !bind_run. cbn [put]. rewrite bind_run, show_context_run. cbn.
  now rewrite app_nil_r.
Qed.

Lemma do_d_run arg (self : Explorer V) :
  do_d arg self =
  if index self <? Z.of_nat (length (frames self)) - 1
  then let self' := set_index (index self + 1) self in
       (context_lines self', self', Return false)
  else ([], self, Return false).
Proof.
  unfold do_d. rewrite bind_run. cbn [get].
  destruct (index self <? Z.of_nat (length (frames self)) - 1); [|reflexivity].
  rewrite !bind_run. cbn [put]. rewrite bind_run, show_context_run. cbn.
  now rewrite app_nil_r.
Qed.

Lemma readonly_do_s arg : readonly (V := V) (do_s arg).
Proof.
  unfold do_s. apply readonly_bind; [apply readonly_get|intros self].
  apply readonly_bind; [apply readonly_for_each; intros; apply readonly_print|intros _].
  apply readonly_bind; [apply readonly_lift|intros f].
  apply readonly_bind; [apply readonly_lift|intros src].
  apply readonly_bind; [apply readonly_print|intros _]. apply readonly_ret.
Qed.

Lemma readonly_do_w arg : readonly (V := V) (do_w arg).
Proof.
  unfold do_w. apply readonly_bind; [apply readonly_get|intros self].
  apply readonly_bind; [apply readonly_lift|intros f].
  apply readonly_bind; [apply readonly_lift|intros width].
  apply readonly_bind; [|intros _; apply readonly_ret].
  apply readonly_for_each. intros [name val].
  apply readonly_bind; [apply readonly_lift|intros s0; apply readonly_print].
Qed.

Lemma readonly_do_p arg : readonly (V := V) (do_p arg).
Proof.
  unfold do_p. apply readonly_bind; [apply readonly_get|intros self].
  apply readonly_bind; [apply readonly_lift|intros f].
  apply readonly_bind; [apply readonly_lift|intros v].
  apply readonly_bind; [apply readonly_lift|intros s0].
  apply readonly_bind; [apply readonly_print|intros _; apply readonly_ret].
Qed.

Lemma readonly_do_pp arg : readonly (V := V) (do_pp arg).
Proof.
  unfold do_pp. apply readonly_bind; [apply readonly_get|intros self].
  apply readonly_bind; [apply readonly_lift|intros f].
  apply readonly_bind; [apply readonly_lift|intros v].
  apply readonly_bind; [apply readonly_lift|intros s0].
  apply readonly_bind; [apply readonly_print|intros _; apply readonly_ret].
Qed.

Lemma readonly_do_help arg : readonly (V := V) (do_help arg).
Proof. intros self. reflexivity. Qed.

Lemma readonly_Cmd_default line : readonly (V := V) (Cmd_default line).
Proof. intros self. reflexivity. Qed.

Lemma step_ok_readonly {A} (m : M V A) (self : Explorer V) :
  readonly m -> step_ok self (m self).
Proof.
  intros Hm. unfold step_ok. rewrite (Hm self). auto.
Qed.

Lemma handler_step_ok cmd h arg (self : Explorer V) :
  handler cmd = Some h -> step_ok self (h arg self).
Proof.
  unfold handler. intros Hh.
  repeat match type of Hh with
         | (if ?b then _ else _) = _ => destruct b
         end; try discriminate; injection Hh as <-.
  - apply step_ok_readonly, readonly_do_s.
  - rewrite do_l_run. unfold step_ok; cbn; auto.
  - rewrite do_q_run. unfold step_ok; cbn; auto.
  - rewrite do_u_run. unfold step_ok, focus_ok.
    destruct (0 <? index self) eqn:E; cbn; repeat split; auto; try lia; discriminate.
  - rewrite do_d_run. unfold step_ok, focus_ok.
    destruct (index self <? _) eqn:E; cbn; repeat split; auto; try lia; discriminate.
  - apply step_ok_readonly, readonly_do_w.
  - apply step_ok_readonly, readonly_do_p.
  - apply step_ok_readonly, readonly_do_pp.
  - apply step_ok_readonly, readonly_do_help.
Qed.

Lemma step_ok_set_lastcmd {A} l (self : Explorer V) (res : str * Explorer V * outcome A) out :
  step_ok (set_lastcmd l self) res -> step_ok self (out ++ res.1.1, res.1.2, res.2).
Proof. unfold step_ok, focus_ok. cbn. tauto. Qed.

Lemma Cmd_onecmd_step_ok (self_onecmd : str -> M V bool) :
  (forall t s, step_ok s (self_onecmd t s)) ->
  forall text self, step_ok self (Cmd_onecmd self_onecmd text self).
Proof.
  intros Hrec text self. unfold Cmd_onecmd.
  destruct (Cmd_parseline text) as [[cmd arg] line].
  destruct line as [|c line].
  - rewrite bind_run. cbn [get].
    destruct (lastcmd self) as [|c l] eqn:E.
    + unfold step_ok; cbn; auto.
    + specialize (Hrec (c :: l) self).
      destruct (self_onecmd (c :: l) self) as [[out' self'] r']. exact Hrec.
  - destruct cmd as [cmd|]; [destruct arg as [arg|]|];
      try (apply step_ok_readonly, readonly_Cmd_default).
    rewrite bind_run. cbn [get]. rewrite bind_run. cbn [put].
    set (self1 := set_lastcmd _ self).
    assert (Hk : forall k : M V bool, step_ok self1 (k self1) ->
              step_ok self (let '(out', self'', r') :=
                              let '(out', self'', r') := k self1 in ([] ++ out', self'', r')
                            in ([] ++ out', self'', r'))).
    { intros k Hk. destruct (k self1) as [[o s1] r1].
      apply (step_ok_set_lastcmd _ self (o, s1, r1) []) in Hk. exact Hk. }
    destruct cmd as [|c0 cmd].
    + apply Hk, step_ok_readonly, readonly_Cmd_default.
    + destruct (handler (c0 :: cmd)) as [h|] eqn:Eh.
      * apply Hk. eapply handler_step_ok, Eh.
      * apply Hk, step_ok_readonly, readonly_Cmd_default.
Qed.

Lemma onecmd_fuel_step_ok (fuel : nat) text (self : Explorer V) :
  step_ok self (onecmd_fuel fuel text self).
Proof.
  revert text self. induction fuel as [|fuel IH]; intros text self.
  - apply step_ok_readonly, readonly_lift.
  - cbn [onecmd_fuel]. unfold except_Exception.
    pose proof (Cmd_onecmd_step_ok (onecmd_fuel fuel) IH text self) as H.
    destruct (Cmd_onecmd (onecmd_fuel fuel) text self) as [[out self'] r].
    destruct r as [a|e|]; try exact H.
    destruct (exc_is_Exception e); [|exact H].
    unfold step_ok in *. cbn in *. destruct H as (?&?&?&?&Hi).
    destruct (exc_str e) as [s|e']; cbn.
    + do 4 (split; [assumption|]). intros ? [=].
    + do 4 (split; [assumption|]). intros ? _. now apply (Hi e).
Qed.

(** ** Frame-chain collection *)

(** C4 (as amended): [frames_from_traceback] returns one Frame per link
    of the chain, in the order of the links (oldest call first), so its
    length is the number of links; each Frame wraps its link's frame and
    carries the link's recorded line number, except that a recorded line
    number of 0 is replaced by the current line of the link's frame. *)
Theorem frames_from_traceback_links (tb : traceback V) :
  length (frames_from_traceback tb) = length (tb_links tb)
  /\ map frame (frames_from_traceback tb) = map fst (tb_links tb)
  /\ map lineno (frames_from_traceback tb)
     = map (fun l => if snd l =? 0 then f_lineno (fst l) else snd l) (tb_links tb).
Proof.
  unfold frames_from_traceback. rewrite frames_from_traceback_loop_app, app_nil_l.
  rewrite length_map, !map_map. repeat split; reflexivity.
Qed.

(** ** The explorer session *)

Lemma Explorer_init_index msg_ frames_ intro_ (self : Explorer V) :
  Explorer_init msg_ frames_ intro_ = Return self ->
  frames self = frames_ /\ msg self = msg_
  /\ index self = Z.of_nat (length frames_) - 1.
Proof.
  unfold Explorer_init. destruct (wrap_words _ _ _) as [lines nextline].
  unfold banner_glyphs. destruct richoutput; cbn.
  - destruct (lines ++ [nextline]); cbn; intros [= <-]; cbn; auto.
  - discriminate.
Qed.

(** C5: a session over a non-empty chain starts with the focus on the
    last (innermost) frame, [len(chain) - 1], and every command, whatever
    the input line, keeps the focus within [0 <= focus < len(chain)]. *)
Theorem explorer_focus_invariant msg_ frames_ intro_ (self : Explorer V) :
  frames_ <> [] ->
  Explorer_init msg_ frames_ intro_ = Return self ->
  index self = Z.of_nat (length frames_) - 1
  /\ focus_ok self
  /\ (forall text (s : Explorer V), focus_ok s -> focus_ok (onecmd text s).1.2).
Proof.
  intros Hne Hinit. apply Explorer_init_index in Hinit as (Hf & _ & Hi).
  split; [exact Hi|]. split.
  - unfold focus_ok. rewrite Hi, Hf. destruct frames_; [congruence|]. cbn [length]. lia.
  - intros text s Hs. apply (onecmd_fuel_step_ok 2 text s). exact Hs.
Qed.

(** C7 (what the code does): without rich output the constructor reads
    the glyph variable [ur], which the ASCII branch never assigns, and
    raises; no session and no banner are produced. *)
Theorem Explorer_init_ascii_raises msg_ frames_ intro_ :
  richoutput = false ->
  Explorer_init msg_ frames_ intro_ = Raise (UnboundLocalError "ur").
Proof.
  intros Hr. unfold Explorer_init. destruct (wrap_words _ _ _) as [lines nextline].
  unfold banner_glyphs. rewrite Hr. reflexivity.
Qed.

(** C8: [up] moves the focus one frame up and does nothing at all (no
    output, session unchanged) when the focus is 0; [down] moves it one
    frame down and does nothing at all when the focus is on the last
    frame.  When they move, chain and message are untouched and the
    list view of the new focus is printed. *)
Theorem up_down_focus arg (self : Explorer V) :
  (0 < index self ->
     do_u arg self = (context_lines (set_index (index self - 1) self),
                      set_index (index self - 1) self, Return false))
  /\ (index self = 0 -> do_u arg self = ([], self, Return false))
  /\ (index self < Z.of_nat (length (frames self)) - 1 ->
     do_d arg self = (context_lines (set_index (index self + 1) self),
                      set_index (index self + 1) self, Return false))
  /\ (index self = Z.of_nat (length (frames self)) - 1 ->
     do_d arg self = ([], self, Return false)).
Proof.
  rewrite do_u_run, do_d_run. repeat split; intros H.
  - apply Z.ltb_lt in H. now rewrite H.
  - rewrite H. reflexivity.
  - apply Z.ltb_lt in H. now rewrite H.
  - rewrite H, Z.ltb_irrefl. reflexivity.
Qed.


(** ** Dispatch of a parsed command *)

Lemma eqb_eq (s t : str) : PyStr.eqb s t = true -> s = t.
Proof.
  revert t. induction s as [|a s IH]; intros [|b t]; cbn; try discriminate; auto.
  intros H. apply andb_prop in H as [Hab Hst].
  apply Ascii.eqb_eq in Hab. subst b. f_equal. auto.
Qed.

Lemma Cmd_parseline_scan text cmd arg line :
  Cmd_parseline text = (Some cmd, Some arg, line) ->
  line <> [] /\ exists rest, span_ident line = (cmd, rest) /\ arg = strip rest.
Proof.
  unfold Cmd_parseline. destruct (strip text) as [|c r]; [discriminate|].
  destruct (Ascii.eqb c "?").
  - destruct (span_ident (py "help " ++ r)) as [cmd' rest] eqn:E.
    intros [= <- <- <-]. split; [discriminate|]. eauto.
  - destruct (Ascii.eqb c "!"); [discriminate|].
    destruct (span_ident (c :: r)) as [cmd' rest] eqn:E.
    intros [= <- <- <-]. split; [discriminate|]. eauto.
Qed.

Lemma Cmd_onecmd_dispatch (self_onecmd : str -> M V bool) text cmd arg line h
    (self : Explorer V) :
  Cmd_parseline text = (Some cmd, Some arg, line) ->
  handler cmd = Some h ->
  Cmd_onecmd self_onecmd text self = h arg (set_lastcmd line self).
Proof.
  intros Hp Hh. unfold Cmd_onecmd. rewrite Hp.
  apply Cmd_parseline_scan in Hp as (Hne & rest & Hs & _).
  destruct line as [|c line]; [congruence|].
  destruct (PyStr.eqb (c :: line) (py "EOF")) eqn:E.
  { apply eqb_eq in E. rewrite E in Hs. cbv in Hs. injection Hs as <- _.
    discriminate Hh. }
  destruct cmd as [|c0 cmd]; [discriminate Hh|]. rewrite Hh.
  rewrite bind_run. cbn [get]. rewrite bind_run. cbn [put].
  destruct (h arg (set_lastcmd (c :: line) self)) as [[o s] r]. reflexivity.
Qed.

Lemma onecmd_dispatch text cmd arg line h (self : Explorer V) :
  Cmd_parseline text = (Some cmd, Some arg, line) ->
  handler cmd = Some h ->
  onecmd text self = except_Exception text (h arg (set_lastcmd line self)).
Proof.
  intros Hp Hh. unfold onecmd. cbn [onecmd_fuel].
  now rewrite (Cmd_onecmd_dispatch _ _ _ _ _ _ _ Hp Hh).
Qed.

Lemma context_lines_same (s s' : Explorer V) :
  frames s' = frames s -> index s' = index s -> msg s' = msg s ->
  context_lines s' = context_lines s.
Proof. unfold context_lines. now intros -> -> ->. Qed.


Lemma cmdloop_lines_cons text rest (self : Explorer V) :
  cmdloop_lines (text :: rest) self
  = let '(out, self', r) := onecmd text self in
    match r with
    | Return stop =>
        if stop then (prompt self ++ out, self', Return tt)
        else let '(out', self'', r') := cmdloop_lines rest self' in
             (prompt self ++ out ++ out', self'', r')
    | Raise e => (prompt self ++ out, self', Raise e)
    | OutOfFuel => (prompt self ++ out, self', OutOfFuel)
    end.
Proof.
  cbn [cmdloop_lines]. rewrite bind_run. cbn [get]. rewrite bind_run. cbn [write].
  rewrite bind_run. destruct (onecmd text self) as [[out self'] r].
  destruct r as [stop|e|]; cbn; try reflexivity.
  destruct stop; cbn.
  - now rewrite app_nil_r.
  - destruct (cmdloop_lines rest self') as [[out' self''] r']. reflexivity.
Qed.


(** C10: when the focused frame has no local variable, the [locals]
    command prints no listing: taking the maximum over the empty set of
    names raises ValueError, [onecmd] catches it and prints the line
    [ValueError in <repr of the line>: max() arg is an empty sequence],
    and the session goes on with chain, focus and message unchanged. *)
Theorem locals_of_empty_frame text arg line (self : Explorer V) f :
  Cmd_parseline text = (Some (py "w"), Some arg, line) ->
  getitem (frames self) (index self) = Return f ->
  f_locals (frame f) = [] ->
  onecmd text self
  = (py "ValueError in " ++ repr_str text ++ py ": max() arg is an empty sequence" ++ [LF],
     set_lastcmd line self, Return false).
Proof.
  intros Hp Hf Hl.
  rewrite (onecmd_dispatch text (py "w") arg line do_w) by (assumption || reflexivity).
  unfold do_w. rewrite bind_run. cbn [get]. rewrite bind_run.
  unfold lift at 1. cbn [frames index set_lastcmd]. rewrite Hf.
  rewrite bind_run. unfold lift at 1. rewrite Hl. reflexivity.
Qed.


Lemma eval_raises text arg line (self : Explorer V) f e :
  Cmd_parseline text = (Some (py "p"), Some arg, line) ->
  getitem (frames self) (index self) = Return f ->
  py_eval arg (f_globals (frame f)) (f_locals (frame f)) = Raise e ->
  Cmd_onecmd (onecmd_fuel 1) text self = ([], set_lastcmd line self, Raise e).
Proof.
  intros Hp Hf He.
  rewrite (Cmd_onecmd_dispatch _ text (py "p") arg line do_p) by (assumption || reflexivity).
  unfold do_p. rewrite bind_run. cbn [get]. rewrite bind_run.
  unfold lift at 1. cbn [frames index set_lastcmd]. rewrite Hf.
  rewrite bind_run. unfold lift at 1. rewrite He. reflexivity.
Qed.

(** ** The HTML renderer *)

Lemma W_bind_run {A B} (m : W A) (k : A -> W B) :
  m ≫= k =
  let '(ws, r) := m in
  match r with
  | Return a => let '(ws', r') := k a in (ws ++ ws', r')
  | Raise e => (ws, Raise e)
  | OutOfFuel => (ws, OutOfFuel)
  end.
Proof. reflexivity. Qed.

Lemma for_eachW_out_write {A} (l : list A) (g : A -> str) :
  for_eachW l (fun a => out_write (g a)) = (map g l, Return tt).
Proof.
  induction l as [|a l IH]; cbn [for_eachW map]; [reflexivity|].
  rewrite W_bind_run. cbn [out_write]. now rewrite IH.
Qed.

Lemma count_error_spans_app ws ws' :
  count_error_spans (ws ++ ws') = (count_error_spans ws + count_error_spans ws')%nat.
Proof. unfold count_error_spans. now rewrite List.filter_app, length_app. Qed.

Lemma in_replace c a by_ s : In c (replace a by_ s) -> In c by_ \/ (In c s /\ c <> a).
Proof.
  induction s as [|b s IH]; cbn [replace]; [intros []|].
  intros H. apply in_app_or in H as [H|H].
  - destruct (Ascii.eqb b a) eqn:E; [now left|].
    right. destruct H as [<-|[]]. split; [now left|].
    intros ->. now rewrite Ascii.eqb_refl in E.
  - destruct (IH H) as [?|[? ?]]; [now left|right]. split; [now right|assumption].
Qed.

Lemma escape_no_markup s : ~ In "<"%char (escape s) /\ ~ In ">"%char (escape s).
Proof.
  unfold escape. split; intros H.
  - apply in_replace in H as [H|[H _]].
    + cbv in H. intuition discriminate.
    + apply in_replace in H as [H|[_ H]]; [|congruence].
      cbv in H. intuition discriminate.
  - apply in_replace in H as [H|[_ H]]; [|congruence].
    cbv in H. intuition discriminate.
Qed.

Lemma bold_keywords_head s :
  ~ In "<"%char s -> startswith (bold_keywords s ++ [LF]) (py "<s") = false.
Proof.
  unfold bold_keywords. destruct s as [|c s]; [reflexivity|].
  intros Hc. cbn [sub_keywords].
  destruct (match_keyword (c :: s)); [reflexivity|].
  cbn [app startswith py list_ascii_of_string].
  destruct (Ascii.eqb_spec "<" c) as [<-|Hne]; [|reflexivity].
  exfalso. apply Hc. now left.
Qed.

Lemma startswith_app s t p : startswith s p = true -> startswith (s ++ t) p = true.
Proof.
  revert s. induction p as [|a p IH]; intros s H.
  - now destruct (s ++ t).
  - destruct s as [|b s]; [discriminate|]. cbn in *.
    apply andb_prop in H as [-> H]. cbn. auto.
Qed.

Lemma startswith_shorter s p q : startswith s p = false -> startswith s (p ++ q) = false.
Proof.
  revert s. induction p as [|a p IH]; intros s H.
  - now destruct s.
  - destruct s as [|b s]; [reflexivity|]. cbn in *.
    destruct (Ascii.eqb a b); cbn in *; auto.
Qed.

Lemma html_source_line_span line :
  is_error_span (html_source_line line) = startswith line (py ">").
Proof.
  unfold html_source_line, is_error_span.
  destruct (startswith line (py ">")).
  - reflexivity.
  - apply (startswith_shorter _ (py "<s") (skipn 2 span_error)).
    apply bold_keywords_head, escape_no_markup.
Qed.

Lemma html_local_no_span kv : Forall (fun w => is_error_span w = false) (html_local kv).1.
Proof.
  destruct kv as [key val]. unfold html_local. rewrite W_bind_run. unfold liftW.
  destruct (py_str val); cbn; repeat constructor.
Qed.

Lemma for_eachW_no_span {A} (l : list A) (body : A -> W unit) :
  (forall a, Forall (fun w => is_error_span w = false) (body a).1) ->
  Forall (fun w => is_error_span w = false) (for_eachW l body).1.
Proof.
  intros Hb. induction l as [|a l IH]; cbn [for_eachW]; [constructor|].
  rewrite W_bind_run. specialize (Hb a). destruct (body a) as [ws r].
  destruct r; cbn in *; try assumption.
  destruct (for_eachW l body) as [ws' r']. cbn in *. apply Forall_app; now split.
Qed.

Lemma count_error_spans_none ws :
  Forall (fun w => is_error_span w = false) ws -> count_error_spans ws = 0%nat.
Proof.
  unfold count_error_spans. induction 1 as [|w ws Hw _ IH]; [reflexivity|].
  cbn. now rewrite Hw.
Qed.

Lemma count_error_spans_lines ls :
  count_error_spans (map html_source_line ls)
  = length (List.filter (fun l => startswith l (py ">")) ls).
Proof.
  unfold count_error_spans. induction ls as [|l ls IH]; [reflexivity|].
  cbn [map List.filter]. rewrite html_source_line_span.
  destruct (startswith l (py ">")); cbn [length]; now rewrite IH.
Qed.

Lemma splitlines_go_head c cur s :
  exists l ls, splitlines_go (cur ++ [c]) s = (c :: l) :: ls.
Proof.
  revert cur. induction s as [|d r IH]; intros cur.
  - cbn [splitlines_go]. rewrite rev_app_distr. cbn [rev app].
    destruct (cur ++ [c]) eqn:E; [now destruct cur|]. eauto.
  - cbn [splitlines_go].
    destruct (Ascii.eqb d LF).
    { rewrite rev_app_distr. cbn [rev app]. eauto. }
    destruct (Ascii.eqb d CR).
    { rewrite rev_app_distr. cbn [rev app].
      destruct r as [|d' r']; [eauto|]. destruct (Ascii.eqb d' LF); eauto. }
    apply (IH (d :: cur)).
Qed.

Lemma context_head (f : Frame V) :
  exists h, getitem (splitlines (context f)) 0 = Return (" "%char :: h).
Proof.
  unfold context, splitlines.
  destruct (splitlines_go_head " " [] (py " " ++ where_ f ++ [LF] ++ py "    "
              ++ strip (getline f (lineno f)))) as (l & ls & E).
  exists l. change (splitlines_go [] (py "  " ++ ?x)) with (splitlines_go ([] ++ [" "%char]) (py " " ++ x)).
  rewrite E. reflexivity.
Qed.

(** The writes of one per-frame section whose source was reconstructed. *)
Lemma html_frame_writes (f : Frame V) src :
  source f = Return src ->
  exists h rows,
    (html_frame f).1
    = [(" "%char :: h) ++ [LF]] ++ map html_source_line (splitlines src) ++ rows
    /\ Forall (fun w => is_error_span w = false) rows.
Proof.
  intros Hs. destruct (context_head f) as [h Hh]. exists h.
  unfold html_frame. rewrite W_bind_run. unfold liftW at 1. rewrite Hh.
  rewrite W_bind_run. cbn [out_write]. rewrite W_bind_run. unfold liftW at 1. rewrite Hs.
  rewrite W_bind_run, for_eachW_out_write.
  rewrite W_bind_run. cbn [out_write]. rewrite W_bind_run. cbn [out_write].
  rewrite W_bind_run.
  pose proof (for_eachW_no_span (f_locals (frame f)) html_local html_local_no_span) as Hrows.
  destruct (for_eachW (f_locals (frame f)) html_local) as [rows r].
  cbn [fst] in Hrows.
  destruct r as [[]|e|]; cbn [fst app].
  - eexists. split; [reflexivity|].
    repeat (constructor; [reflexivity|]). apply Forall_app; split; [assumption|].
    repeat constructor.
  - eexists. split; [reflexivity|].
    repeat (constructor; [reflexivity|]). assumption.
  - eexists. split; [reflexivity|].
    repeat (constructor; [reflexivity|]). assumption.
Qed.


(** In a per-frame section whose reconstructed source has exactly one
    marked line, that line is the one error span, and the span holds a
    space and the line's text after the sentinel, escaped and with the
    keywords in bold. *)
Lemma html_marked_line_span (f : Frame V) src pre t post :
  source f = Return src ->
  splitlines src = pre ++ [py ">" ++ t] ++ post ->
  Forall (fun l => startswith l (py ">") = false) (pre ++ post) ->
  count_error_spans (html_frame f).1 = 1%nat
  /\ In (span_error ++ py " " ++ bold_keywords (escape t) ++ py "</span>" ++ [LF])
        (html_frame f).1.
Proof.
  intros Hs Hl Hno. destruct (html_frame_writes f src Hs) as (h & rows & -> & Hrows).
  apply Forall_app in Hno as [Hpre Hpost]. split.
  - rewrite !count_error_spans_app, count_error_spans_lines, (count_error_spans_none rows Hrows).
    rewrite Hl, !List.filter_app, !length_app.
    assert (Hz : forall ls, Forall (fun l => startswith l (py ">") = false) ls ->
                 length (List.filter (fun l => startswith l (py ">")) ls) = 0%nat).
    { induction 1 as [|l ls Hl' _ IH]; [reflexivity|]. cbn [List.filter]. now rewrite Hl'. }
    rewrite (Hz pre Hpre), (Hz post Hpost). now destruct t.
  - apply in_or_app. right. apply in_or_app. left.
    rewrite Hl. apply in_map_iff. exists (py ">" ++ t). split.
    + unfold html_source_line.
      replace (startswith (py ">" ++ t) (py ">")) with true by (now destruct t).
      reflexivity.
    + apply in_or_app. right. now left.
Qed.


(** ** Source reconstruction *)

Lemma linecache_getline_range filename n :
  linecache_getline filename n <> [] ->
  1 <= n <= Z.of_nat (length (linecache_getlines filename)).
Proof.
  unfold linecache_getline.
  destruct (1 <=? n) eqn:E1; [|now intros []].
  destruct (n <=? _) eqn:E2; [|now intros []].
  intros _. split; [now apply Z.leb_le|now apply Z.leb_le in E2].
Qed.

Lemma source_decorators_total (self : Frame V) indent fuel ln source :
  Z.of_nat (length (linecache_getlines (co_filename (f_code (frame self))))) - ln
    < Z.of_nat fuel ->
  match source_decorators fuel self indent ln (getline self ln) source with
  | Return (ln', _) => ln <= ln'
  | Raise _ => True
  | OutOfFuel => False
  end.
Proof.
  revert ln source. induction fuel as [|fuel IH]; intros ln source Hf.
  - cbn [source_decorators].
    destruct (item indent (getline self ln)) as [c|] eqn:E; [|exact I].
    assert (getline self ln <> []) as Hne by (intros H; rewrite H in E; unfold item in E; now destruct (Z.to_nat indent)).
    apply linecache_getline_range in Hne. lia.
  - cbn [source_decorators].
    destruct (item indent (getline self ln)) as [c|] eqn:E; [|exact I].
    destruct (Ascii.eqb c "@"); [|lia].
    assert (getline self ln <> []) as Hne by (intros H; rewrite H in E; unfold item in E; now destruct (Z.to_nat indent)).
    apply linecache_getline_range in Hne.
    specialize (IH (ln + 1) (source ++ from indent (getline self (ln + 1)))).
    destruct (source_decorators fuel self indent (ln + 1) _ _) as [[ln' s']| |];
      [|exact I|]; [assert (ln + 1 <= ln') by (apply IH; lia); lia | apply IH; lia].
Qed.

Lemma source_body_total (self : Frame V) path indent fuel ln linebreak source :
  Z.of_nat (length (linecache_getlines path)) - ln < Z.of_nat fuel ->
  (0 < fuel)%nat ->
  source_body fuel self path indent ln linebreak source <> OutOfFuel.
Proof.
  revert ln linebreak source. induction fuel as [|fuel IH]; intros ln lb source Hf Hpos; [lia|].
  cbn [source_body].
  set (line := linecache_getline path (ln + 1)).
  assert (Hrec : line <> [] -> forall lb' s',
             source_body fuel self path indent (ln + 1) lb' s' <> OutOfFuel).
  { intros Hne lb' s'. apply linecache_getline_range in Hne. apply IH; lia. }
  destruct (startswith (lstrip (upto (indent + 1) line)) (py "#")) eqn:Ec.
  - apply Hrec. intros H. rewrite H in Ec. unfold upto in Ec.
    rewrite firstn_nil in Ec. discriminate.
  - destruct line as [|c l] eqn:El; [discriminate|].
    destruct (_ || _); [discriminate|]. now apply Hrec.
Qed.

(** The first line missing: the sentinel text. *)
Lemma source_not_available (self : Frame V) :
  getline self (co_firstlineno (f_code (frame self))) = [] ->
  source self = Return (py "<not avaliable>").
Proof. unfold source, source_fuel. now intros ->. Qed.

(** The loops of [source] never run out of fuel: the function returns
    or raises. *)
Lemma source_terminates (self : Frame V) : source self <> OutOfFuel.
Proof.
  unfold source, source_fuel.
  set (path := co_filename (f_code (frame self))).
  set (n0 := co_firstlineno (f_code (frame self))).
  destruct (getline self n0) as [|c l] eqn:E; [discriminate|].
  assert (Hr : 1 <= n0 <= Z.of_nat (length (linecache_getlines path))).
  { apply linecache_getline_range. change (linecache_getline path n0) with (getline self n0). now rewrite E. }
  set (indent := len (c :: l) - len (lstrip (c :: l))).
  pose proof (source_decorators_total self indent
                (S (length (linecache_getlines path))) n0
                (from indent (c :: l))) as Hd.
  rewrite E in Hd.
  destruct (source_decorators _ self indent n0 (c :: l) _) as [[ln' s']| |].
  - cbn -[source_body]. assert (n0 <= ln') by (apply Hd; fold path; lia).
    pose proof (source_body_total self path indent
                  (S (length (linecache_getlines path))) ln' false s') as Hb.
    destruct (source_body _ self path indent ln' false s'); try discriminate.
    apply Hb; lia.
  - discriminate.
  - exfalso. apply Hd. fold path. lia.
Qed.


(** ** Lines and trailing blanks *)

Lemma splitlines_go_line cur t s :
  breakfree t ->
  splitlines_go cur (t ++ LF :: s) = (rev cur ++ t) :: splitlines_go [] s.
Proof.
  intros Ht. revert cur. induction Ht as [|c t [Hc1 Hc2] _ IH]; intros cur.
  - cbn [app splitlines_go]. rewrite Ascii.eqb_refl. now rewrite app_nil_r.
  - cbn [app splitlines_go].
    destruct (Ascii.eqb_spec c LF) as [->|_]; [congruence|].
    destruct (Ascii.eqb_spec c CR) as [->|_]; [congruence|].
    rewrite IH. cbn [rev]. now rewrite <- app_assoc.
Qed.

Lemma splitlines_go_last cur t :
  breakfree t ->
  splitlines_go cur t = match rev cur ++ t with [] => [] | l => [l] end.
Proof.
  intros Ht. revert cur. induction Ht as [|c t [Hc1 Hc2] _ IH]; intros cur.
  - cbn [splitlines_go]. rewrite app_nil_r.
    destruct cur as [|a cur]; [reflexivity|].
    destruct (rev (a :: cur)) eqn:E; [|reflexivity].
    apply (f_equal (@length _)) in E. rewrite length_rev in E. discriminate.
  - cbn [splitlines_go].
    destruct (Ascii.eqb_spec c LF) as [->|_]; [congruence|].
    destruct (Ascii.eqb_spec c CR) as [->|_]; [congruence|].
    rewrite IH. cbn [rev]. now rewrite <- app_assoc.
Qed.

Lemma splitlines_unlines_app ts t :
  Forall breakfree ts -> breakfree t ->
  splitlines (unlines ts ++ t) = ts ++ match t with [] => [] | _ => [t] end.
Proof.
  intros Hts Ht. unfold splitlines. induction Hts as [|a ts Ha _ IH].
  - cbn. rewrite (splitlines_go_last [] t Ht). now destruct t.
  - unfold unlines. cbn [map concat]. rewrite <- !app_assoc. cbn [app].
    rewrite (splitlines_go_line [] a _ Ha). cbn [rev app]. f_equal. exact IH.
Qed.

Lemma lstrip_app_blank a b : blank a -> lstrip (a ++ b) = lstrip b.
Proof. induction 1 as [|c a Hc _ IH]; [reflexivity|]. cbn. now rewrite Hc. Qed.

Lemma lstrip_app_nonblank a b : lstrip a <> [] -> lstrip (a ++ b) = lstrip a ++ b.
Proof.
  induction a as [|c a IH]; intros H; [now destruct H|]. cbn in *.
  destruct (isspace c); [now apply IH|reflexivity].
Qed.

Lemma blank_rev a : blank a -> blank (rev a).
Proof. unfold blank. intros H. apply Forall_rev. exact H. Qed.

Lemma rstrip_app_blank x y : blank y -> rstrip (x ++ y) = rstrip x.
Proof.
  intros Hy. unfold rstrip. rewrite rev_app_distr.
  now rewrite (lstrip_app_blank _ _ (blank_rev y Hy)).
Qed.

Lemma rstrip_app_nonblank x y : rstrip y <> [] -> rstrip (x ++ y) = x ++ rstrip y.
Proof.
  unfold rstrip. intros Hy. rewrite rev_app_distr.
  rewrite lstrip_app_nonblank.
  - now rewrite rev_app_distr, rev_involutive.
  - intros E. apply Hy. now rewrite E.
Qed.

Lemma lstrip_blank_or a : lstrip a = [] -> blank a.
Proof.
  induction a as [|c a IH]; intros H; [constructor|]. cbn in H.
  destruct (isspace c) eqn:E; [|discriminate]. constructor; [exact E|now apply IH].
Qed.

Lemma rstrip_nil_blank y : rstrip y = [] -> blank y.
Proof.
  unfold rstrip. intros H. apply (f_equal (@rev _)) in H. rewrite rev_involutive in H.
  cbn in H. apply lstrip_blank_or in H. apply blank_rev in H.
  now rewrite rev_involutive in H.
Qed.

Lemma Forall_lstrip (P : ascii -> Prop) a : Forall P a -> Forall P (lstrip a).
Proof.
  induction 1 as [|c a Hc Ha IH]; [constructor|]. cbn.
  destruct (isspace c); [exact IH|now constructor].
Qed.

Lemma Forall_rstrip (P : ascii -> Prop) a : Forall P a -> Forall P (rstrip a).
Proof.
  intros H. unfold rstrip. apply Forall_rev, Forall_lstrip, Forall_rev, H.
Qed.

Lemma rstrip_cons c t :
  rstrip (c :: t)
  = match rstrip t with
    | [] => if isspace c then [] else [c]
    | r => c :: r
    end.
Proof.
  destruct (rstrip t) as [|a r] eqn:E.
  - change (c :: t) with ([c] ++ t).
    rewrite (rstrip_app_blank [c] t (rstrip_nil_blank t E)).
    unfold rstrip. cbn. now destruct (isspace c).
  - change (c :: t) with ([c] ++ t).
    rewrite rstrip_app_nonblank by (rewrite E; discriminate). now rewrite E.
Qed.

Lemma startswith_nil s : startswith s [] = true.
Proof. now destruct s. Qed.

Lemma marked_cons c t : marked (c :: t) = Ascii.eqb ">" c.
Proof. unfold marked. cbn. now rewrite startswith_nil, andb_true_r. Qed.

Lemma marked_rstrip t : rstrip t <> [] -> marked (rstrip t) = marked t.
Proof.
  destruct t as [|c t]; [now intros []|]. rewrite rstrip_cons.
  destruct (rstrip t) as [|a r].
  - destruct (isspace c); [now intros []|]. intros _. now rewrite !marked_cons.
  - intros _. now rewrite !marked_cons.
Qed.

Lemma blank_not_marked t : blank t -> marked t = false.
Proof.
  destruct 1 as [|c t Hc _]; [reflexivity|]. rewrite marked_cons.
  destruct (Ascii.eqb_spec ">" c) as [<-|]; [discriminate Hc|reflexivity].
Qed.

Lemma unlines_snoc ts t : unlines (ts ++ [t]) = unlines ts ++ t ++ [LF].
Proof.
  unfold unlines. rewrite map_app, concat_app. cbn. now rewrite app_nil_r.
Qed.

(** The lines of a reconstructed text, after its trailing blanks are
    cut: the marked lines are kept, at most right-trimmed. *)
Lemma trimmed_lines ts :
  Forall breakfree ts ->
  length (List.filter marked (splitlines (rstrip (unlines ts))))
  = length (List.filter marked ts)
  /\ forall b, In (py ">" ++ b) ts ->
       In (py ">" ++ b) (splitlines (rstrip (unlines ts)))
       \/ In (py ">" ++ rstrip b) (splitlines (rstrip (unlines ts))).
Proof.
  induction ts as [|t ts IH] using rev_ind; intros Hts.
  - split; [reflexivity|]. intros b [].
  - apply Forall_app in Hts as [Hts Ht]. apply Forall_inv in Ht.
    rewrite unlines_snoc. destruct (rstrip t) as [|a r] eqn:E.
    + assert (Hb : blank t) by now apply rstrip_nil_blank.
      assert (Hb' : blank (t ++ [LF])).
      { apply Forall_app; split; [exact Hb|]. now repeat constructor. }
      rewrite (rstrip_app_blank _ _ Hb'). destruct (IH Hts) as [IH1 IH2].
      rewrite List.filter_app, length_app. cbn [List.filter].
      rewrite (blank_not_marked t Hb). cbn [length]. split; [lia|].
      intros b Hin. apply in_app_or in Hin as [Hin|[->|[]]]; [now apply IH2|].
      pose proof (blank_not_marked _ Hb) as Hm.
      change (py ">" ++ b) with (">"%char :: b) in Hm. rewrite marked_cons in Hm.
      discriminate Hm.
    + assert (Hr : rstrip (t ++ [LF]) = rstrip t).
      { apply rstrip_app_blank. now repeat constructor. }
      rewrite rstrip_app_nonblank by (rewrite Hr, E; discriminate).
      rewrite Hr, splitlines_unlines_app; [|exact Hts|now apply Forall_rstrip].
      rewrite E, <- E.
      rewrite !List.filter_app, !length_app. cbn [List.filter].
      rewrite marked_rstrip by (rewrite E; discriminate).
      split; [now destruct (marked t)|].
      intros b Hin. apply in_app_or in Hin as [Hin|[->|[]]].
      * left. apply in_or_app. now left.
      * right. apply in_or_app. right. left.
        change (py ">" ++ b) with (">"%char :: b). rewrite rstrip_cons.
        destruct (rstrip b); reflexivity.
Qed.


(** ** The reconstruction on a function laid out in the usual way *)

Lemma linecache_getline_nth filename n :
  linecache_getline filename (Z.of_nat (S n)) = nth n (linecache_getlines filename) [].
Proof.
  unfold linecache_getline.
  replace (Z.to_nat (Z.of_nat (S n) - 1)) with n by lia.
  destruct (1 <=? Z.of_nat (S n)) eqn:E1; [|apply Z.leb_gt in E1; lia].
  destruct (Z.of_nat (S n) <=? _) eqn:E2; [reflexivity|].
  apply Z.leb_gt in E2. cbn [andb]. symmetry. apply nth_overflow. lia.
Qed.

Lemma nth_middle_app {A} (pre : list A) x post d :
  nth (length pre) (pre ++ x :: post) d = x.
Proof. induction pre; [reflexivity|assumption]. Qed.

Lemma nth_end_app {A} (pre : list A) d : nth (length pre) pre d = d.
Proof. induction pre; [reflexivity|assumption]. Qed.

Lemma blank_repeat w : blank (repeat " "%char w).
Proof. induction w; constructor; [reflexivity|assumption]. Qed.

Lemma lstrip_blank a : blank a -> lstrip a = [].
Proof. induction 1 as [|c a Hc _ IH]; [reflexivity|]. cbn. now rewrite Hc. Qed.

Lemma skipn_repeat_app {A} (x : A) w l : skipn w (repeat x w ++ l) = l.
Proof. induction w; [reflexivity|assumption]. Qed.

Lemma from_indented w h : from (Z.of_nat w) (indented w h) = h ++ [LF].
Proof. unfold from, indented. rewrite Nat2Z.id. apply skipn_repeat_app. Qed.

Lemma item_indented w c h : item (Z.of_nat w) (indented w (c :: h)) = Some c.
Proof.
  unfold item, indented. rewrite Nat2Z.id. induction w; [reflexivity|assumption].
Qed.

Lemma indent_of_indented w c h :
  isspace c = false ->
  len (indented w (c :: h)) - len (lstrip (indented w (c :: h))) = Z.of_nat w.
Proof.
  intros Hc. unfold indented. rewrite (lstrip_app_blank _ _ (blank_repeat w)).
  cbn [app lstrip]. rewrite Hc. unfold len. rewrite length_app, repeat_length. lia.
Qed.

Lemma source_decorators_layout (self : Frame V) w decos c d tail :
  forall pre fuel src,
  (length decos <= fuel)%nat ->
  linecache_getlines (co_filename (f_code (frame self)))
    = pre ++ map (indented w) (decos ++ [c :: d]) ++ tail ->
  Forall decorator decos ->
  c <> "@"%char ->
  source_decorators fuel self (Z.of_nat w) (Z.of_nat (S (length pre)))
    (indented w (hd (c :: d) decos)) src
  = Return (Z.of_nat (S (length pre) + length decos),
            src ++ unlines (tl (decos ++ [c :: d]))).
Proof.
  induction decos as [|h decos IH]; intros pre fuel src Hfuel Hlines Hdecos Hc.
  - cbn [hd]. destruct fuel; cbn [source_decorators];
      rewrite item_indented; (destruct (Ascii.eqb_spec c "@"); [congruence|]);
      cbn; now rewrite Nat.add_0_r, app_nil_r.
  - apply Forall_cons in Hdecos as [[h' ->] Hdecos].
    destruct fuel as [|fuel]; [cbn in Hfuel; lia|].
    cbn [hd source_decorators]. rewrite item_indented. cbn [Ascii.eqb Bool.eqb].
    replace (Z.of_nat (S (length pre)) + 1) with (Z.of_nat (S (length (pre ++ [indented w ("@"%char :: h')])))).
    2:{ rewrite length_app. cbn [length]. lia. }
    assert (Hlines' : linecache_getlines (co_filename (f_code (frame self)))
                      = (pre ++ [indented w ("@"%char :: h')])
                          ++ map (indented w) (decos ++ [c :: d]) ++ tail).
    { rewrite Hlines. cbn [app map]. now rewrite <- app_assoc. }
    unfold getline at 1 2. rewrite linecache_getline_nth.
    assert (Hnext : nth (length (pre ++ [indented w ("@"%char :: h')]))
                        (linecache_getlines (co_filename (f_code (frame self)))) []
                    = indented w (hd (c :: d) decos)).
    { rewrite Hlines'. destruct decos; cbn [app map hd]; apply nth_middle_app. }
    rewrite Hnext, from_indented.
    rewrite (IH _ fuel _ ltac:(cbn in Hfuel; lia) Hlines' Hdecos Hc).
    f_equal. f_equal.
    + rewrite length_app. cbn [length]. lia.
    + rewrite <- app_assoc. f_equal. destruct decos; cbn; reflexivity.
Qed.


Lemma source_body_layout (self : Frame V) path w rest body :
  forall pre lb src fuel,
  (length body < fuel)%nat ->
  linecache_getlines path = pre ++ body ++ rest ->
  Forall (body_line w) body ->
  ends_block w (final_linebreak lb body) rest = true ->
  source_body fuel self path (Z.of_nat w) (Z.of_nat (length pre)) lb src
  = Return (src ++ concat (body_chunks (lineno self) w (length pre) body)).
Proof.
  induction body as [|l body IH]; intros pre lb src fuel Hfuel Hlines Hbody Hend;
    (destruct fuel as [|fuel]; [cbn in Hfuel; lia|]); cbn [source_body].
  - replace (Z.of_nat (length pre) + 1) with (Z.of_nat (S (length pre))) by lia.
    rewrite linecache_getline_nth, Hlines. cbn [app final_linebreak] in *.
    unfold upto. replace (Z.to_nat (Z.of_nat w + 1)) with (S w) by lia.
    destruct rest as [|r rest].
    + rewrite app_nil_r, nth_end_app. cbn. now rewrite app_nil_r.
    + rewrite nth_middle_app. cbn [ends_block] in Hend.
      apply andb_prop in Hend as [Hc Hb]. apply negb_true_iff in Hc. rewrite Hc, Hb.
      cbn. now rewrite app_nil_r.
  - replace (Z.of_nat (length pre) + 1) with (Z.of_nat (S (length pre))) by lia.
    rewrite linecache_getline_nth, Hlines. cbn [app]. rewrite nth_middle_app.
    apply Forall_cons in Hbody as [(t & Hl & Ht & Hblank) Hbody].
    unfold upto, from. replace (Z.to_nat (Z.of_nat w + 1)) with (S w) by lia.
    rewrite Nat2Z.id, (lstrip_blank _ Hblank).
    change (startswith [] (py "#")) with false. cbv iota.
    assert (Hs : strip (firstn (S w) l) = []).
    { unfold strip. now rewrite (lstrip_blank _ Hblank). }
    rewrite Hs. destruct l as [|c l']; [now destruct t|]. cbn [orb andb].
    cbn [body_chunks concat].
    assert (E : S (length pre) = length (pre ++ [c :: l']))
      by (rewrite length_app; cbn [length]; lia).
    rewrite E. rewrite (IH (pre ++ [c :: l']) _ _ fuel).
    + now rewrite <- app_assoc.
    + cbn in Hfuel. lia.
    + rewrite Hlines. cbn [app]. now rewrite <- app_assoc.
    + exact Hbody.
    + exact Hend.
Qed.


Lemma breakfree_skipn n t : breakfree t -> breakfree (skipn n t).
Proof.
  unfold breakfree. revert t. induction n as [|n IH]; intros t Ht; [exact Ht|].
  destruct t as [|c t]; [constructor|]. apply Forall_cons in Ht as [_ Ht]. now apply IH.
Qed.

Lemma skipn_line n t :
  (n <= length t)%nat -> skipn n (t ++ [LF]) = skipn n t ++ [LF].
Proof.
  revert t. induction n as [|n IH]; intros t Hn; [reflexivity|].
  destruct t as [|c t]; [cbn in Hn; lia|]. cbn in *. apply IH. lia.
Qed.

Lemma blank_column w l c r :
  blank (firstn (S w) l) -> skipn w l = c :: r -> isspace c = true.
Proof.
  revert l. induction w as [|w IH]; intros l Hb Hs.
  - change (skipn 0 l) with l in Hs. rewrite Hs in Hb.
    change (firstn 1 (c :: r)) with [c] in Hb. now apply Forall_cons in Hb as [Hc _].
  - destruct l as [|a l]; [discriminate|]. change (skipn (S w) (a :: l)) with (skipn w l) in Hs.
    change (firstn (S (S w)) (a :: l)) with (a :: firstn (S w) l) in Hb.
    apply Forall_cons in Hb as [_ Hb]. eapply IH; eassumption.
Qed.

(** What an unmarked body line contributes: nothing when it ends before
    the definition column, otherwise one line, which is not marked. *)
Lemma unmarked_chunk w l :
  body_line w l ->
  exists ts, skipn w l = unlines ts /\ Forall breakfree ts
             /\ Forall (fun t => marked t = false) ts.
Proof.
  intros (t & -> & Ht & Hb).
  destruct (le_lt_dec w (length t)) as [Hw|Hw].
  - exists [skipn w t]. rewrite (skipn_line w t Hw). split.
    { unfold unlines. cbn. now rewrite app_nil_r. }
    split; [repeat constructor; now apply breakfree_skipn|].
    repeat constructor.
    destruct (skipn w t) as [|c r] eqn:E; [reflexivity|].
    rewrite marked_cons.
    assert (Hc : isspace c = true).
    { apply (blank_column w (t ++ [LF]) c (r ++ [LF]) Hb).
      now rewrite (skipn_line w t Hw), E. }
    destruct (Ascii.eqb_spec ">" c) as [<-|]; [discriminate Hc|reflexivity].
  - exists []. split; [|split; constructor].
    apply skipn_all2. rewrite length_app. cbn. lia.
Qed.

(** What the marked body line contributes. *)
Lemma marked_chunk w l :
  body_line w l -> (S w < length l)%nat ->
  py ">" ++ skipn (S w) l = unlines [py ">" ++ removelast (skipn (S w) l)]
  /\ breakfree (py ">" ++ removelast (skipn (S w) l)).
Proof.
  intros (t & -> & Ht & Hb) Hlen. rewrite length_app in Hlen. cbn in Hlen.
  rewrite (skipn_line (S w) t) by lia. rewrite removelast_last. split.
  - unfold unlines. cbn. now rewrite app_nil_r.
  - constructor; [split; discriminate|]. now apply breakfree_skipn.
Qed.

Lemma unlines_app ts ts' : unlines (ts ++ ts') = unlines ts ++ unlines ts'.
Proof. unfold unlines. now rewrite map_app, concat_app. Qed.

Lemma body_chunks_unmarked cursor w body :
  forall n, cursor < Z.of_nat (S n) ->
  Forall (body_line w) body ->
  exists ts, concat (body_chunks cursor w n body) = unlines ts
             /\ Forall breakfree ts /\ Forall (fun t => marked t = false) ts.
Proof.
  induction body as [|l body IH]; intros n Hn Hbody.
  - exists []. repeat split; constructor.
  - apply Forall_cons in Hbody as [Hl Hbody]. cbn [body_chunks concat].
    destruct (Z.eqb_spec (Z.of_nat (S n)) cursor) as [E|_]; [lia|].
    destruct (unmarked_chunk w l Hl) as (ts1 & -> & Hb1 & Hm1).
    destruct (IH (S n) ltac:(lia) Hbody) as (ts2 & -> & Hb2 & Hm2).
    exists (ts1 ++ ts2). rewrite unlines_app.
    repeat split; try reflexivity; apply Forall_app; now split.
Qed.

(** The lines contributed by the body when the cursor is on its [j]-th
    line: exactly one is marked, the cursor line cut after the
    definition column. *)
Lemma body_chunks_marked w body lc :
  forall j n,
  body !! j = Some lc -> (S w < length lc)%nat ->
  Forall (body_line w) body ->
  exists ts, concat (body_chunks (Z.of_nat (S (n + j))) w n body) = unlines ts
             /\ Forall breakfree ts
             /\ length (List.filter marked ts) = 1%nat
             /\ In (py ">" ++ removelast (skipn (S w) lc)) ts.
Proof.
  induction body as [|l body IH]; intros j n Hj Hlen Hbody; [discriminate|].
  apply Forall_cons in Hbody as [Hl Hbody]. cbn [body_chunks concat].
  destruct j as [|j].
  - injection Hj as ->. rewrite Nat.add_0_r, Z.eqb_refl.
    destruct (marked_chunk w lc Hl Hlen) as [-> Hb1].
    destruct (body_chunks_unmarked (Z.of_nat (S n)) w body (S n) ltac:(lia) Hbody)
      as (ts2 & -> & Hb2 & Hm2).
    exists ([py ">" ++ removelast (skipn (S w) lc)] ++ ts2).
    rewrite unlines_app. split; [reflexivity|]. split; [apply Forall_app; split; auto|].
    split; [|now left].
    cbn [app List.filter]. change (py ">" ++ ?x) with (">"%char :: x).
    rewrite marked_cons. cbn [Ascii.eqb Bool.eqb length]. f_equal.
    clear -Hm2. induction Hm2 as [|t ts Ht _ IHm]; [reflexivity|].
    cbn [List.filter]. now rewrite Ht.
  - cbn in Hj.
    destruct (Z.eqb_spec (Z.of_nat (S n)) (Z.of_nat (S (n + S j)))) as [E|_]; [lia|].
    destruct (unmarked_chunk w l Hl) as (ts1 & -> & Hb1 & Hm1).
    replace (S (n + S j)) with (S (S n + j)) by lia.
    destruct (IH j (S n) Hj Hlen Hbody) as (ts2 & -> & Hb2 & Hc2 & Hin2).
    exists (ts1 ++ ts2). rewrite unlines_app. split; [reflexivity|].
    split; [apply Forall_app; now split|]. split; [|apply in_or_app; now right].
    rewrite List.filter_app, length_app, Hc2.
    clear -Hm1. induction Hm1 as [|t ts Ht _ IHm]; [reflexivity|].
    cbn [List.filter]. now rewrite Ht.
Qed.


(** [source] on a function laid out as decorator lines and a definition
    line at one indentation, body lines blank up to the definition
    column, and a line that ends the block. *)
Lemma source_layout (f : Frame V) before w decos c d body rest :
  linecache_getlines (co_filename (f_code (frame f)))
    = before ++ map (indented w) (decos ++ [c :: d]) ++ body ++ rest ->
  co_firstlineno (f_code (frame f)) = Z.of_nat (S (length before)) ->
  Forall decorator decos -> isspace c = false -> c <> "@"%char ->
  Forall (body_line w) body ->
  ends_block w (final_linebreak false body) rest = true ->
  source f
  = Return (rstrip (unlines (decos ++ [c :: d])
                    ++ concat (body_chunks (lineno f) w
                                 (length before + length decos + 1) body))).
Proof.
  intros Hlines Hfirst Hdecos Hc Hat Hbody Hend.
  unfold source, source_fuel. rewrite Hfirst.
  assert (Hhd : exists c1 h1, hd (c :: d) decos = c1 :: h1 /\ isspace c1 = false) .
  { destruct Hdecos as [|h decos [h' ->] _]; cbn [hd]; eauto. }
  destruct Hhd as (c1 & h1 & Hh & Hc1).
  assert (H1 : getline f (Z.of_nat (S (length before))) = indented w (c1 :: h1)).
  { unfold getline. rewrite linecache_getline_nth, Hlines, <- Hh.
    destruct decos; cbn [app map hd]; apply nth_middle_app. }
  rewrite H1.
  destruct (indented w (c1 :: h1)) as [|a l] eqn:E.
  { apply (f_equal (@length _)) in E. unfold indented in E.
    rewrite !length_app in E. cbn in E. lia. }
  rewrite <- E. rewrite (indent_of_indented w c1 h1 Hc1), from_indented.
  rewrite <- Hh.
  assert (Hn : (length decos + length body
                < S (length (linecache_getlines (co_filename (f_code (frame f))))))%nat).
  { rewrite Hlines, !length_app, length_map, length_app. lia. }
  rewrite (source_decorators_layout f w decos c d (body ++ rest) before
             (S (length (linecache_getlines (co_filename (f_code (frame f)))))) _
             ltac:(lia) Hlines Hdecos Hat).
  cbn [mbind outcome_bind].
  replace (Z.of_nat (S (length before) + length decos))
    with (Z.of_nat (length (before ++ map (indented w) (decos ++ [c :: d]))))
    by (rewrite length_app, length_map, length_app; cbn [length]; lia).
  rewrite (source_body_layout f _ w rest body
             (before ++ map (indented w) (decos ++ [c :: d])) false _
             (S (length (linecache_getlines (co_filename (f_code (frame f))))))
             ltac:(lia)
             ltac:(rewrite Hlines; now rewrite <- app_assoc) Hbody Hend).
  cbn [mbind outcome_bind]. f_equal. f_equal.
  replace (length (before ++ map (indented w) (decos ++ [c :: d])))
    with (length before + length decos + 1)%nat
    by (rewrite length_app, length_map, length_app; cbn [length]; lia).
  f_equal. destruct decos as [|h decos]; cbn [hd app tl].
  - unfold unlines. cbn. now rewrite app_nil_r.
  - unfold unlines. cbn [map concat app]. now rewrite <- app_assoc.
Qed.


Lemma html_source_line_marked T :
  html_source_line (py ">" ++ T)
  = span_error ++ py " " ++ bold_keywords (escape T) ++ py "</span>" ++ [LF].
Proof.
  unfold html_source_line.
  replace (startswith (py ">" ++ T) (py ">")) with true by (now destruct T).
  reflexivity.
Qed.

Lemma filter_unmarked ts :
  Forall (fun t => marked t = false) ts -> List.filter marked ts = [].
Proof.
  induction 1 as [|t ts Ht _ IH]; [reflexivity|]. cbn [List.filter]. now rewrite Ht.
Qed.

(** C6 (as amended): take a function laid out in its file as decorator
    lines (if any) and the definition line at one indentation, followed
    by body lines that are blank up to and including the definition
    column, followed by the end of the file or a line that ends the
    block; take a frame of it whose cursor line is a body line reaching
    beyond the column after the definition column.  Then the per-frame
    section of the HTML dump wraps exactly one line in an "error" span,
    the cursor line, and the inner text of the span is a space followed
    by the text of the cursor line after these columns, without its line
    break (right-trimmed when only blank lines follow it), with [<] and
    [>] escaped and the keywords set in bold. *)
Theorem html_cursor_span (f : Frame V) before w decos c d body rest j lc :
  linecache_getlines (co_filename (f_code (frame f)))
    = before ++ map (indented w) (decos ++ [c :: d]) ++ body ++ rest ->
  co_firstlineno (f_code (frame f)) = Z.of_nat (S (length before)) ->
  Forall decorator decos -> Forall breakfree decos ->
  isspace c = false -> c <> "@"%char -> c <> ">"%char -> breakfree (c :: d) ->
  Forall (body_line w) body ->
  ends_block w (final_linebreak false body) rest = true ->
  body !! j = Some lc -> (S w < length lc)%nat ->
  lineno f = Z.of_nat (S (length before + length decos + 1 + j)) ->
  count_error_spans (html_frame f).1 = 1%nat
  /\ exists T,
       (T = removelast (skipn (S w) lc) \/ T = rstrip (removelast (skipn (S w) lc)))
       /\ In (span_error ++ py " " ++ bold_keywords (escape T) ++ py "</span>" ++ [LF])
             (html_frame f).1.
Proof.
  intros Hlines Hfirst Hdecos Hbf Hc Hat Hgt Hd Hbody Hend Hj Hlen Hcur.
  pose proof (source_layout f before w decos c d body rest
                Hlines Hfirst Hdecos Hc Hat Hbody Hend) as Hsrc.
  rewrite Hcur in Hsrc.
  destruct (body_chunks_marked w body lc j (length before + length decos + 1)
              Hj Hlen Hbody) as (ts & Hts & Hbts & Hcount & Hin).
  rewrite Hts, <- unlines_app in Hsrc.
  assert (Hheads : Forall (fun t => marked t = false) (decos ++ [c :: d])).
  { apply Forall_app; split.
    - clear -Hdecos. induction Hdecos as [|h hs [h' ->] _ IH]; constructor; auto.
    - repeat constructor. rewrite marked_cons.
      destruct (Ascii.eqb_spec ">" c); [congruence|reflexivity]. }
  assert (Hall : Forall breakfree ((decos ++ [c :: d]) ++ ts)).
  { apply Forall_app; split; [apply Forall_app; split; [exact Hbf|]|exact Hbts].
    constructor; [exact Hd|constructor]. }
  destruct (trimmed_lines _ Hall) as [Htrim Hkeep].
  rewrite List.filter_app, (filter_unmarked _ Hheads) in Htrim. cbn [app] in Htrim.
  rewrite Hcount in Htrim.
  destruct (html_frame_writes f _ Hsrc) as (h & rows & -> & Hrows). split.
  - rewrite !count_error_spans_app, count_error_spans_lines, (count_error_spans_none rows Hrows).
    fold marked. rewrite Htrim. reflexivity.
  - specialize (Hkeep (removelast (skipn (S w) lc))).
    destruct Hkeep as [Hk|Hk]; [apply in_or_app; now right| |].
    + exists (removelast (skipn (S w) lc)). split; [now left|].
      apply in_or_app. right. apply in_or_app. left.
      rewrite <- html_source_line_marked. now apply in_map.
    + exists (rstrip (removelast (skipn (S w) lc))). split; [now right|].
      apply in_or_app. right. apply in_or_app. left.
      rewrite <- html_source_line_marked. now apply in_map.
Qed.


(** The only exception [source] can raise is the IndexError of the
    decorator loop. *)
Lemma source_decorators_raise (self : Frame V) indent fuel ln line src e :
  source_decorators fuel self indent ln line src = Raise e ->
  e = IndexError "string index out of range".
Proof.
  revert ln line src. induction fuel as [|fuel IH]; intros ln line src;
    cbn [source_decorators]; destruct (item indent line) as [c|];
    try (now intros [= <-]); destruct (Ascii.eqb c "@"); try discriminate.
  apply IH.
Qed.

Lemma source_body_no_raise (self : Frame V) path indent fuel ln lb src e :
  source_body fuel self path indent ln lb src <> Raise e.
Proof.
  revert ln lb src. induction fuel as [|fuel IH]; intros ln lb src; [discriminate|].
  cbn [source_body].
  destruct (startswith _ _); [apply IH|].
  destruct (_ || _); [discriminate|apply IH].
Qed.

Lemma source_raises_only_IndexError (self : Frame V) e :
  source self = Raise e -> e = IndexError "string index out of range".
Proof.
  unfold source, source_fuel.
  destruct (getline self _) as [|c l]; [discriminate|].
  destruct (source_decorators _ self _ _ _ _) as [[ln' s']|e'|] eqn:Ed.
  - cbn -[source_body].
    destruct (source_body _ self _ _ ln' false s') as [s''|e''|] eqn:Eb; try discriminate.
    now apply source_body_no_raise in Eb.
  - cbn. intros [= <-]. now apply source_decorators_raise in Ed.
  - discriminate.
Qed.


(** ** Re-entry on an empty line *)

Lemma lstrip_head s c r : lstrip s = c :: r -> isspace c = false.
Proof.
  induction s as [|a s IH]; [discriminate|]. cbn.
  destruct (isspace a) eqn:E; [exact IH|]. now intros [= <- _].
Qed.

Lemma strip_head s c r : strip s = c :: r -> isspace c = false.
Proof.
  unfold strip. destruct (lstrip s) as [|a t] eqn:E; [discriminate|].
  pose proof (lstrip_head s a t E) as Ha. rewrite rstrip_cons.
  destruct (rstrip t); [rewrite Ha|]; now intros [= <- _].
Qed.

Lemma strip_nonspace_head c r : isspace c = false -> strip (c :: r) <> [].
Proof.
  intros Hc. unfold strip. cbn [lstrip]. rewrite Hc, rstrip_cons.
  destruct (rstrip r); [rewrite Hc|]; discriminate.
Qed.

Lemma Cmd_parseline_line text : (Cmd_parseline text).2 <> [] ->
  (Cmd_parseline (Cmd_parseline text).2).2 <> [].
Proof.
  unfold Cmd_parseline at 1 3. destruct (strip text) as [|c r] eqn:E; [now intros []|].
  pose proof (strip_head text c r E) as Hc.
  assert (Hgen : forall l, strip l <> [] -> (Cmd_parseline l).2 <> []).
  { intros l Hl. unfold Cmd_parseline. destruct (strip l) as [|a t]; [congruence|].
    destruct (Ascii.eqb a "?").
    - destruct (span_ident (py "help " ++ t)). discriminate.
    - destruct (Ascii.eqb a "!"); [discriminate|].
      destruct (span_ident (a :: t)). discriminate. }
  destruct (Ascii.eqb c "?").
  - destruct (span_ident (py "help " ++ r)). intros _. cbn [snd]. apply Hgen.
    now apply strip_nonspace_head.
  - destruct (Ascii.eqb c "!").
    + intros _. cbn [snd]. apply Hgen. now apply strip_nonspace_head.
    + destruct (span_ident (c :: r)). intros _. cbn [snd]. apply Hgen.
      now apply strip_nonspace_head.
Qed.

(** A line that parses to something is run without re-entry. *)
Lemma Cmd_onecmd_nonempty (g g' : str -> M V bool) text (self : Explorer V) :
  (Cmd_parseline text).2 <> [] ->
  Cmd_onecmd g text self = Cmd_onecmd g' text self.
Proof.
  unfold Cmd_onecmd. destruct (Cmd_parseline text) as [[cmd arg] line]. cbn [snd].
  destruct line; [now intros []|reflexivity].
Qed.

Lemma Cmd_onecmd_empty (g : str -> M V bool) text (self : Explorer V) :
  (Cmd_parseline text).2 = [] ->
  Cmd_onecmd g text self
  = match lastcmd self with
    | [] => ([], self, Return false)
    | l => g l self
    end.
Proof.
  unfold Cmd_onecmd. destruct (Cmd_parseline text) as [[cmd arg] line]. cbn [snd].
  intros ->. rewrite bind_run. cbn [get].
  destruct (lastcmd self) as [|c l]; [reflexivity|].
  now destruct (g (c :: l) self) as [[o s] r].
Qed.

Lemma onecmd_fuel_nonempty (n m : nat) text (self : Explorer V) :
  (Cmd_parseline text).2 <> [] ->
  onecmd_fuel (S n) text self = onecmd_fuel (S m) text self.
Proof.
  intros H. cbn [onecmd_fuel]. f_equal. now apply Cmd_onecmd_nonempty.
Qed.

Lemma onecmd_fuel_enough (fuel : nat) text (self : Explorer V) :
  lastcmd_ok self ->
  onecmd_fuel (S (S fuel)) text self = onecmd text self.
Proof.
  intros Hok. unfold onecmd.
  change (except_Exception text (Cmd_onecmd (onecmd_fuel (S fuel)) text self)
          = except_Exception text (Cmd_onecmd (onecmd_fuel 1) text self)).
  f_equal.
  destruct ((Cmd_parseline text).2) as [|a line] eqn:Ep.
  - rewrite !Cmd_onecmd_empty by exact Ep.
    destruct (lastcmd self) as [|c l] eqn:El; [reflexivity|].
    destruct Hok as [Hok|Hok]; [congruence|]. rewrite El in Hok.
    now apply onecmd_fuel_nonempty.
  - apply Cmd_onecmd_nonempty. now rewrite Ep.
Qed.

(** Every command leaves [lastcmd] in that form. *)
Lemma handler_lastcmd cmd h arg (self : Explorer V) :
  handler cmd = Some h -> lastcmd (h arg self).1.2 = lastcmd self.
Proof.
  unfold handler. intros Hh.
  repeat match type of Hh with
         | (if ?b then _ else _) = _ => destruct b
         end; try discriminate; injection Hh as <-.
  - now rewrite readonly_do_s.
  - now rewrite do_l_run.
  - now rewrite do_q_run.
  - rewrite do_u_run. now destruct (0 <? index self).
  - rewrite do_d_run. now destruct (index self <? _).
  - now rewrite readonly_do_w.
  - now rewrite readonly_do_p.
  - now rewrite readonly_do_pp.
  - now rewrite readonly_do_help.
Qed.

Lemma except_Exception_state text (res : str * Explorer V * outcome bool) :
  (except_Exception text res).1.2 = res.1.2.
Proof.
  destruct res as [[o s] r]. cbn. destruct r as [b|e|]; try reflexivity.
  now destruct (exc_is_Exception e), (exc_str e).
Qed.

Lemma Cmd_onecmd_lastcmd_ok (g : str -> M V bool) text (self : Explorer V) :
  (forall l s, lastcmd_ok s -> lastcmd_ok (g l s).1.2) ->
  lastcmd_ok self -> lastcmd_ok (Cmd_onecmd g text self).1.2.
Proof.
  intros Hg Hok.
  destruct ((Cmd_parseline text).2) as [|a line] eqn:Ep.
  - rewrite Cmd_onecmd_empty by exact Ep.
    destruct (lastcmd self) as [|c l] eqn:El; [exact Hok|]. now apply Hg.
  - pose proof (Cmd_parseline_line text ltac:(now rewrite Ep)) as Hline.
    unfold Cmd_onecmd. destruct (Cmd_parseline text) as [[cmd arg] line'].
    cbn [snd] in Ep, Hline. subst line'.
    destruct cmd as [cmd|]; [destruct arg as [arg|]|];
      try (rewrite readonly_Cmd_default; exact Hok).
    rewrite bind_run. cbn [get]. rewrite bind_run. cbn [put].
    set (self1 := set_lastcmd _ self).
    assert (H1 : lastcmd_ok self1).
    { unfold lastcmd_ok, self1. cbn [lastcmd set_lastcmd].
      destruct (PyStr.eqb (a :: line) (py "EOF")); [now left|now right]. }
    assert (Hk : forall k : M V bool, lastcmd (k self1).1.2 = lastcmd self1 ->
              lastcmd_ok (let '(out', self'', r') :=
                              let '(out', self'', r') := k self1 in ([] ++ out', self'', r')
                            in ([] ++ out', self'', r')).1.2).
    { intros k Hk. destruct (k self1) as [[o s1] r1]. cbn in *.
      unfold lastcmd_ok in *. now rewrite Hk. }
    destruct cmd as [|c0 cmd].
    + apply Hk. now rewrite readonly_Cmd_default.
    + destruct (handler (c0 :: cmd)) as [h|] eqn:Eh.
      * apply Hk. eapply handler_lastcmd, Eh.
      * apply Hk. now rewrite readonly_Cmd_default.
Qed.

Lemma onecmd_fuel_lastcmd_ok (fuel : nat) text (self : Explorer V) :
  lastcmd_ok self -> lastcmd_ok (onecmd_fuel fuel text self).1.2.
Proof.
  revert text self. induction fuel as [|fuel IH]; intros text self Hok; [exact Hok|].
  cbn [onecmd_fuel]. rewrite except_Exception_state.
  apply Cmd_onecmd_lastcmd_ok; [|exact Hok]. intros l s. apply IH.
Qed.

End DebugFacts.

(** ** The configuration object *)

Module ConfigFacts.
Import Config ConfigSpec.

Section ConfigFacts.

Context {V : Type} `{EqDecision V} `{!Klass V}.

















End ConfigFacts.
End ConfigFacts.

(** ** The rest of the debug module *)

Section DebugRestFacts.

Context {V : Type} `{!Runtime V} `{!Introspect V}.

(** *** Source reconstruction *)

(** X1: [source] always ends: it returns a text, or it raises the
    IndexError of the decorator loop; nothing else is raised. *)
Theorem source_returns_or_IndexError (self : Frame V) :
  (exists text, source self = Return text)
  \/ source self = Raise (IndexError "string index out of range").
Proof.
  destruct (source self) as [text|e|] eqn:E.
  - left. now exists text.
  - right. now rewrite (source_raises_only_IndexError self e E).
  - now destruct (source_terminates self).
Qed.

(** X2: when the file cannot be read, or the first line number of the
    code lies outside the file, [source] returns the text
    [<not avaliable>]. *)
Theorem source_outside_file (self : Frame V) :
  ~ (1 <= co_firstlineno (f_code (frame self))
       <= Z.of_nat (length (linecache_getlines (co_filename (f_code (frame self)))))) ->
  source self = Return (py "<not avaliable>").
Proof.
  intros Hout. apply source_not_available.
  destruct (getline self _) as [|c l] eqn:E; [reflexivity|].
  exfalso. apply Hout. apply linecache_getline_range.
  unfold getline in E. now rewrite E.
Qed.

Lemma lstrip_length s : (length (lstrip s) <= length s)%nat.
Proof.
  induction s as [|a s IH]; [reflexivity|]. cbn [lstrip].
  destruct (isspace a); cbn [length]; lia.
Qed.

Lemma item_lstrip s c r :
  lstrip s = c :: r -> item (len s - len (lstrip s)) s = Some c.
Proof.
  induction s as [|a s IH]; [discriminate|]. cbn [lstrip].
  destruct (isspace a) eqn:Ea.
  - intros H. specialize (IH H). pose proof (lstrip_length s).
    unfold item, len in *. cbn [length].
    replace (Z.to_nat (Z.of_nat (S (length s)) - Z.of_nat (length (lstrip s))))
      with (S (Z.to_nat (Z.of_nat (length s) - Z.of_nat (length (lstrip s))))) by lia.
    exact IH.
  - intros [= -> ->]. unfold item, len. now rewrite Z.sub_diag.
Qed.

(** X3: on a first line whose first non-blank character is not [@]
    (no decorator), [source] returns a text: it cannot raise.  *)
Theorem source_without_decorator (self : Frame V) c r :
  lstrip (getline self (co_firstlineno (f_code (frame self)))) = c :: r ->
  c <> "@"%char ->
  exists text, source self = Return text.
Proof.
  intros Hl Hc. unfold source, source_fuel.
  set (path := co_filename (f_code (frame self))).
  set (n0 := co_firstlineno (f_code (frame self))) in *.
  destruct (getline self n0) as [|a l] eqn:E; [discriminate|].
  assert (Hr : 1 <= n0 <= Z.of_nat (length (linecache_getlines path))).
  { apply linecache_getline_range. change (linecache_getline path n0) with (getline self n0).
    now rewrite E. }
  cbn [source_decorators]. rewrite (item_lstrip _ c r Hl).
  destruct (Ascii.eqb_spec c "@") as [->|_]; [congruence|].
  cbn -[source_body].
  destruct (source_body _ self path _ n0 false _) as [text|e|] eqn:Eb.
  - now exists (rstrip text).
  - now apply source_body_no_raise in Eb.
  - apply source_body_total in Eb; [contradiction|lia|lia].
Qed.

Lemma body_chunks_outside cursor w body :
  forall n, ~ (Z.of_nat n < cursor <= Z.of_nat (n + length body)) ->
  body_chunks cursor w n body = map (skipn w) body.
Proof.
  induction body as [|l body IH]; intros n Hout; [reflexivity|].
  cbn [body_chunks map length] in *.
  destruct (Z.eqb_spec (Z.of_nat (S n)) cursor) as [E|_]; [exfalso; apply Hout; lia|].
  f_equal. apply IH. intros H. apply Hout. lia.
Qed.

(** X4: for a function laid out as decorator lines and a definition
    line at indentation [w], body lines blank up to the definition
    column, then the end of the block, and a cursor that is not on a body
    line, [source] returns the decorator and definition lines and the
    body lines in their order, each without its first [w] columns, the
    whole right-trimmed. *)
Theorem source_dedents (f : Frame V) before w decos c d body rest :
  linecache_getlines (co_filename (f_code (frame f)))
    = before ++ map (indented w) (decos ++ [c :: d]) ++ body ++ rest ->
  co_firstlineno (f_code (frame f)) = Z.of_nat (S (length before)) ->
  Forall decorator decos -> isspace c = false -> c <> "@"%char ->
  Forall (body_line w) body ->
  ends_block w (final_linebreak false body) rest = true ->
  ~ (Z.of_nat (length before + length decos + 1) < lineno f
       <= Z.of_nat (length before + length decos + 1 + length body)) ->
  source f
  = Return (rstrip (unlines (decos ++ [c :: d]) ++ concat (map (skipn w) body))).
Proof.
  intros Hlines Hfirst Hdecos Hc Hat Hbody Hend Hout.
  rewrite (source_layout f before w decos c d body rest
             Hlines Hfirst Hdecos Hc Hat Hbody Hend).
  now rewrite (body_chunks_outside _ w body _ Hout).
Qed.


(** *** Frame-chain collection from the live stack *)

Lemma sys_getframe_walk_frames (f : callstack V) depth :
  stack_frames (sys_getframe_walk f depth) = skipn depth (stack_frames f).
Proof.
  revert f. induction depth as [|d IH]; intros [|fr back]; cbn; auto.
Qed.

Lemma frames_from_callstack_loop_app (f : callstack V) acc :
  frames_from_callstack_loop f acc
  = acc ++ map (fun fr => Frame_init fr None) (stack_frames f).
Proof.
  revert acc. induction f as [|fr back IH]; intros acc; cbn.
  - now rewrite app_nil_r.
  - now rewrite IH, <- app_assoc.
Qed.

Lemma frames_from_callstack_run (stack : callstack V) (depth : Z) :
  INT_MIN <= depth <= INT_MAX ->
  frames_from_callstack stack depth
  = Return (map (fun fr => {| frame := fr; lineno := f_lineno fr |})
                (rev (skipn (Z.to_nat depth) (stack_frames stack)))).
Proof.
  intros Hd. unfold frames_from_callstack, sys_getframe.
  destruct (depth <? INT_MIN) eqn:E1; [apply Z.ltb_lt in E1; lia|].
  destruct (INT_MAX <? depth) eqn:E2; [apply Z.ltb_lt in E2; lia|].
  rewrite <- sys_getframe_walk_frames.
  destruct (sys_getframe_walk stack (Z.to_nat depth)) as [|fr back]; [reflexivity|].
  rewrite frames_from_callstack_loop_app, app_nil_l, map_rev. reflexivity.
Qed.

(** X5: for a depth in the range of a C [int],
    [frames_from_callstack] does not raise: it returns the frames that
    lie [depth] or more levels below its own frame, outermost call
    first, each with the line it is executing, and the empty list when
    [depth] is the height of the stack or more (the ValueError of
    [sys._getframe] is caught).  For a depth outside that range the
    OverflowError of [sys._getframe] is not caught. *)
Theorem frames_from_callstack_frames (stack : callstack V) (depth : Z) :
  (INT_MIN <= depth <= INT_MAX ->
     frames_from_callstack stack depth
     = Return (map (fun fr => {| frame := fr; lineno := f_lineno fr |})
                   (rev (skipn (Z.to_nat depth) (stack_frames stack)))))
  /\ (Z.of_nat (length (stack_frames stack)) <= depth <= INT_MAX ->
      frames_from_callstack stack depth = Return [])
  /\ (~ (INT_MIN <= depth <= INT_MAX) ->
      exists e, frames_from_callstack stack depth = Raise e
                /\ exc_class e = py "OverflowError").
Proof.
  split; [apply frames_from_callstack_run|]. split.
  - intros Hd. rewrite frames_from_callstack_run by (unfold INT_MIN in *; lia).
    rewrite skipn_all2 by lia. reflexivity.
  - intros Hd. unfold frames_from_callstack, sys_getframe.
    destruct (depth <? INT_MIN) eqn:E1; [eexists; split; reflexivity|].
    destruct (INT_MAX <? depth) eqn:E2; [eexists; split; reflexivity|].
    apply Z.ltb_ge in E1, E2. lia.
Qed.



(** *** The command loop *)

Lemma except_Exception_id text (res : str * Explorer V * outcome bool) :
  (forall e, res.2 = Raise e -> exc_is_Exception e = false) ->
  except_Exception text res = res.
Proof.
  destruct res as [[o s] r]. cbn. intros H. destruct r as [b|e|]; try reflexivity.
  now rewrite (H e eq_refl).
Qed.

Lemma strip_nil_parseline text : strip text = [] -> (Cmd_parseline text).2 = [].
Proof. unfold Cmd_parseline. now intros ->. Qed.

(** X7: an input line of blanks runs the last command again, inside
    the [try] of the blank line's own [onecmd]; when there has been no
    command yet it does nothing.  So the outcome is that of the last
    command, with that command's own output, result and error report,
    unless the re-run lets an exception of class [Exception] through
    (raised by the conversion of an error in its report), which is then
    reported against the blank line. *)
Theorem emptyline_repeats text (self : Explorer V) :
  strip text = [] -> lastcmd_ok self ->
  onecmd text self
  = match lastcmd self with
    | [] => ([], self, Return false)
    | l => except_Exception text (onecmd l self)
    end
  /\ ((forall e, (onecmd (lastcmd self) self).2 = Raise e -> exc_is_Exception e = false) ->
      onecmd text self
      = match lastcmd self with
        | [] => ([], self, Return false)
        | l => onecmd l self
        end).
Proof.
  intros Hblank Hok.
  assert (H : onecmd text self
              = match lastcmd self with
                | [] => ([], self, Return false)
                | l => except_Exception text (onecmd l self)
                end).
  { change (onecmd text self)
      with (except_Exception text (Cmd_onecmd (onecmd_fuel 1) text self)).
    rewrite (Cmd_onecmd_empty _ text self (strip_nil_parseline text Hblank)).
    destruct (lastcmd self) as [|c l] eqn:El; [reflexivity|].
    destruct Hok as [Hok|Hok]; [congruence|]. rewrite El in Hok.
    f_equal. now apply onecmd_fuel_nonempty. }
  split; [exact H|]. intros Hraise. rewrite H.
  destruct (lastcmd self) as [|c l]; [reflexivity|].
  now apply except_Exception_id.
Qed.

Lemma Cmd_default_run line (self : Explorer V) :
  Cmd_default line self = (py "*** Unknown syntax: " ++ line ++ [LF], self, Return false).
Proof.
  unfold Cmd_default. rewrite bind_run. cbn [write]. cbv [mret M_ret].
  now rewrite app_nil_r.
Qed.

Lemma onecmd_default text line (self self1 : Explorer V) :
  Cmd_onecmd (onecmd_fuel 1) text self
    = (py "*** Unknown syntax: " ++ line ++ [LF], self1, Return false) ->
  onecmd text self = (py "*** Unknown syntax: " ++ line ++ [LF], self1, Return false).
Proof.
  intros H.
  change (onecmd text self)
    with (except_Exception text (Cmd_onecmd (onecmd_fuel 1) text self)).
  now rewrite H.
Qed.

(** X8: a line that names no command of the explorer (an unknown
    word, or a line starting with [!]) is answered with
    [*** Unknown syntax: <line>]; nothing is raised, the loop goes on,
    and chain, focus and message are as before. *)
Theorem unknown_syntax text cmd arg line (self : Explorer V) :
  Cmd_parseline text = (cmd, arg, line) -> line <> [] ->
  match cmd with Some c => handler c = None | None => True end ->
  exists self',
    onecmd text self = (py "*** Unknown syntax: " ++ line ++ [LF], self', Return false)
    /\ frames self' = frames self /\ index self' = index self /\ msg self' = msg self.
Proof.
  intros Hp Hne Hcmd.
  assert (H : exists self',
             Cmd_onecmd (onecmd_fuel 1) text self
             = (py "*** Unknown syntax: " ++ line ++ [LF], self', Return false)
             /\ frames self' = frames self /\ index self' = index self
             /\ msg self' = msg self).
  { unfold Cmd_onecmd. rewrite Hp. destruct line as [|a line]; [congruence|].
    destruct cmd as [c|]; [destruct arg as [arg|]|].
    - rewrite bind_run. cbn [get]. rewrite bind_run. cbn [put].
      exists (set_lastcmd (if PyStr.eqb (a :: line) (py "EOF") then [] else a :: line) self).
      split; [|repeat split; reflexivity].
      destruct c as [|c0 c]; [|rewrite Hcmd]; now rewrite Cmd_default_run.
    - exists self. rewrite Cmd_default_run. now repeat split.
    - exists self. rewrite Cmd_default_run. now repeat split. }
  destruct H as (self' & H & Hs). exists self'. split; [|exact Hs].
  now apply onecmd_default.
Qed.


Lemma goes_on_bind {A} (m : M V A) (k : A -> M V bool) :
  (forall a, goes_on (k a)) -> goes_on (m ≫= k).
Proof.
  intros Hk self. rewrite bind_run. destruct (m self) as [[out self'] r].
  destruct r as [a| |]; try discriminate.
  specialize (Hk a self'). destruct (k a self') as [[out' self''] r']. exact Hk.
Qed.

Lemma goes_on_ret_false : goes_on (V := V) (mret false).
Proof. intros self. discriminate. Qed.

Lemma handler_goes_on cmd h arg :
  handler cmd = Some h -> cmd <> py "q" -> goes_on (V := V) (h arg).
Proof.
  unfold handler. intros Hh Hq.
  repeat match type of Hh with
         | (if ?b then _ else _) = _ => destruct b eqn:?
         end; try discriminate; injection Hh as <-.
  - unfold do_s. repeat (apply goes_on_bind; intros ?). apply goes_on_ret_false.
  - intros self. rewrite do_l_run. discriminate.
  - exfalso. apply Hq. now apply eqb_eq.
  - intros self. rewrite do_u_run. destruct (0 <? index self); discriminate.
  - intros self. rewrite do_d_run. destruct (index self <? _); discriminate.
  - unfold do_w. repeat (apply goes_on_bind; intros ?). apply goes_on_ret_false.
  - unfold do_p. repeat (apply goes_on_bind; intros ?). apply goes_on_ret_false.
  - unfold do_pp. repeat (apply goes_on_bind; intros ?). apply goes_on_ret_false.
  - unfold do_help. repeat (apply goes_on_bind; intros ?). apply goes_on_ret_false.
Qed.

Lemma except_Exception_true text (res : str * Explorer V * outcome bool) :
  (except_Exception text res).2 = Return true -> res.2 = Return true.
Proof.
  destruct res as [[o s] r]. cbn. destruct r as [b|e|]; try discriminate; [auto|].
  destruct (exc_is_Exception e), (exc_str e); discriminate.
Qed.

(** A line that parses to something asks the loop to stop only when it
    is the quit command. *)
Lemma onecmd_fuel_stops_on_q (n : nat) text (self : Explorer V) :
  (Cmd_parseline text).2 <> [] ->
  (onecmd_fuel (S n) text self).2 = Return true ->
  exists arg line, Cmd_parseline text = (Some (py "q"), Some arg, line).
Proof.
  intros Hne H. cbn [onecmd_fuel] in H. apply except_Exception_true in H.
  unfold Cmd_onecmd in H. destruct (Cmd_parseline text) as [[cmd arg] line] eqn:Ep.
  cbn [snd] in Hne. destruct line as [|a line]; [congruence|].
  destruct cmd as [cmd|]; [destruct arg as [arg|]|];
    try (rewrite Cmd_default_run in H; discriminate).
  rewrite bind_run in H. cbn [get] in H. rewrite bind_run in H. cbn [put] in H.
  set (self1 := set_lastcmd _ self) in H.
  assert (Hk : forall k : M V bool, goes_on k ->
            (let '(out', self'', r') :=
               let '(out', self'', r') := k self1 in ([] ++ out', self'', r')
             in ([] ++ out', self'', r')).2 <> Return true).
  { intros k Hk. specialize (Hk self1). now destruct (k self1) as [[o s1] r1]. }
  destruct cmd as [|c0 cmd].
  - exfalso. revert H. apply Hk. intros s. rewrite Cmd_default_run. discriminate.
  - destruct (handler (c0 :: cmd)) as [h|] eqn:Eh.
    + destruct (list_eq_dec (c0 :: cmd) (py "q")) as [->|Hq]; [eauto|].
      exfalso. revert H. apply Hk. eapply handler_goes_on; eassumption.
    + exfalso. revert H. apply Hk. intros s. rewrite Cmd_default_run. discriminate.
Qed.

(** X9: the quit command prints [quit.] and ends the loop: the lines
    after it are not run. *)
Theorem quit_ends_loop text arg line rest (self : Explorer V) :
  Cmd_parseline text = (Some (py "q"), Some arg, line) ->
  cmdloop_lines (text :: rest) self
  = (prompt self ++ py "quit." ++ [LF], set_lastcmd line self, Return tt).
Proof.
  intros Hp. rewrite cmdloop_lines_cons.
  rewrite (onecmd_dispatch text (py "q") arg line do_q self Hp eq_refl), do_q_run.
  reflexivity.
Qed.

(** X10: only the quit command ends the loop: when [onecmd] returns a
    true value, the line run (the input line, or the last command when
    the input line is blank) is a quit command. *)
Theorem only_quit_ends_loop text (self : Explorer V) :
  lastcmd_ok self ->
  (onecmd text self).2 = Return true ->
  exists run arg line,
    (run = text \/ (strip text = [] /\ run = lastcmd self))
    /\ Cmd_parseline run = (Some (py "q"), Some arg, line).
Proof.
  intros Hok H.
  destruct ((Cmd_parseline text).2) as [|a l] eqn:Ep.
  - assert (Hblank : strip text = []).
    { revert Ep. unfold Cmd_parseline. destruct (strip text) as [|c r]; [reflexivity|].
      destruct (Ascii.eqb c "?"); [destruct (span_ident _); discriminate|].
      destruct (Ascii.eqb c "!"); [discriminate|]. destruct (span_ident _); discriminate. }
    change (onecmd text self)
      with (except_Exception text (Cmd_onecmd (onecmd_fuel 1) text self)) in H.
    apply except_Exception_true in H. rewrite (Cmd_onecmd_empty _ text self Ep) in H.
    destruct (lastcmd self) as [|c r] eqn:El; [discriminate|].
    destruct Hok as [Hok|Hok]; [congruence|]. rewrite El in Hok.
    destruct (onecmd_fuel_stops_on_q 0 (c :: r) self Hok H) as (arg & line & Hq).
    exists (c :: r), arg, line. split; [right; now split|exact Hq].
  - destruct (onecmd_fuel_stops_on_q 1 text self ltac:(now rewrite Ep) H)
      as (arg & line & Hq).
    exists text, arg, line. split; [now left|exact Hq].
Qed.


(** *** Commands on the focused frame *)

(** X11: on a session over an empty chain (focus -1) the commands that
    need the focused frame fail, and the loop goes on after one line of
    output: for show-source [UnboundLocalError in <repr of the line>:
    local variable 'f' referenced before assignment] (its loop variable
    was never bound), for locals, eval and pretty-eval [IndexError in
    <repr of the line>: list index out of range]. *)
Theorem commands_on_empty_chain text cmd arg line (self : Explorer V) :
  frames self = [] -> index self = -1 ->
  Cmd_parseline text = (Some cmd, Some arg, line) ->
  In cmd [py "s"; py "w"; py "p"; py "pp"] ->
  onecmd text self
  = (if PyStr.eqb cmd (py "s")
     then py "UnboundLocalError in " ++ repr_str text
          ++ py ": local variable 'f' referenced before assignment" ++ [LF]
     else py "IndexError in " ++ repr_str text ++ py ": list index out of range" ++ [LF],
     set_lastcmd line self, Return false).
Proof.
  intros Hf Hi Hp Hcmd.
  destruct Hcmd as [<-|[<-|[<-|[<-|[]]]]].
  - rewrite (onecmd_dispatch text (py "s") arg line do_s self Hp eq_refl).
    unfold do_s. rewrite bind_run. cbn [get]. cbn [frames index set_lastcmd].
    rewrite Hf, Hi. reflexivity.
  - rewrite (onecmd_dispatch text (py "w") arg line do_w self Hp eq_refl).
    unfold do_w. rewrite bind_run. cbn [get]. cbn [frames index set_lastcmd].
    rewrite Hf, Hi. reflexivity.
  - rewrite (onecmd_dispatch text (py "p") arg line do_p self Hp eq_refl).
    unfold do_p. rewrite bind_run. cbn [get]. cbn [frames index set_lastcmd].
    rewrite Hf, Hi. reflexivity.
  - rewrite (onecmd_dispatch text (py "pp") arg line do_pp self Hp eq_refl).
    unfold do_pp. rewrite bind_run. cbn [get]. cbn [frames index set_lastcmd].
    rewrite Hf, Hi. reflexivity.
Qed.

Lemma last_firstn {A} (l : list A) i x :
  nth_error l i = Some x -> last (firstn (S i) l) = Some x.
Proof.
  revert l. induction i as [|i IH]; intros [|a l] H; try discriminate.
  - now injection H as ->.
  - cbn in H. specialize (IH l H). change (firstn (S (S i)) (a :: l)) with (a :: firstn (S i) l).
    destruct (firstn (S i) l) eqn:E; [discriminate|]. exact IH.
Qed.

Lemma do_s_run arg (self : Explorer V) f src :
  0 <= index self ->
  nth_error (frames self) (Z.to_nat (index self)) = Some f ->
  source f = Return src ->
  do_s arg self
  = (flat_map (fun g => where_ g ++ [LF])
              (firstn (S (Z.to_nat (index self))) (frames self))
       ++ src ++ [LF],
     self, Return false).
Proof.
  intros Hi Hf Hsrc.
  unfold do_s. rewrite bind_run. cbn [get].
  unfold slice_to. destruct (index self + 1 <? 0) eqn:E; [apply Z.ltb_lt in E; lia|].
  replace (Z.to_nat (index self + 1)) with (S (Z.to_nat (index self))) by lia.
  rewrite bind_run, for_each_print. rewrite (last_firstn _ _ _ Hf).
  rewrite bind_run. unfold lift at 1. cbn [local]. rewrite bind_run. unfold lift at 1.
  rewrite Hsrc. rewrite bind_run. unfold print, write. cbn [mret].
  change ((mret false : M V bool) self) with (([] : str), self, Return false).
  cbn [app]. now rewrite !app_nil_r.
Qed.

(** X12: with the focus on frame [i] of the chain, show-source prints
    the location line of each of the frames [0..i], then the
    reconstructed source of frame [i]; the focus and the chain are not
    changed. *)
Theorem show_source_output text arg line (self : Explorer V) f src :
  Cmd_parseline text = (Some (py "s"), Some arg, line) ->
  0 <= index self ->
  nth_error (frames self) (Z.to_nat (index self)) = Some f ->
  source f = Return src ->
  onecmd text self
  = (flat_map (fun g => where_ g ++ [LF])
              (firstn (S (Z.to_nat (index self))) (frames self))
       ++ src ++ [LF],
     set_lastcmd line self, Return false).
Proof.
  intros Hp Hi Hf Hsrc.
  rewrite (onecmd_dispatch text (py "s") arg line do_s self Hp eq_refl).
  rewrite (do_s_run arg (set_lastcmd line self) f src Hi Hf Hsrc).
  reflexivity.
Qed.


Lemma max_len_fold (r : list str) (m : Z) :
  let w := fold_left (fun m x => if m <? len x then len x else m) r m in
  m <= w /\ Forall (fun n => len n <= w) r /\ (w = m \/ Exists (fun n => len n = w) r).
Proof.
  revert m. induction r as [|x r IH]; intros m; cbn [fold_left].
  - repeat split; [lia|constructor|now left].
  - specialize (IH (if m <? len x then len x else m)). cbv zeta in IH.
    destruct IH as (H1 & H2 & H3).
    destruct (m <? len x) eqn:E; [apply Z.ltb_lt in E|apply Z.ltb_ge in E].
    + repeat split; [lia|constructor; [lia|exact H2]|].
      right. destruct H3 as [->|H3]; [now left|now right].
    + repeat split; [lia|constructor; [lia|exact H2]|].
      destruct H3 as [H3|H3]; [now left|right; now right].
Qed.

Lemma max_len_spec names w :
  max_len names = Return w ->
  Forall (fun n => len n <= w) names /\ Exists (fun n => len n = w) names.
Proof.
  destruct names as [|n r]; [discriminate|]. cbn [max_len]. intros [= <-].
  destruct (max_len_fold r (len n)) as (H1 & H2 & H3). cbv zeta in *.
  split; [now constructor|]. destruct H3 as [H3|H3]; [left; congruence|now right].
Qed.

Lemma do_w_rows (w : Z) (l : list (str * V)) (self : Explorer V) :
  Forall (fun nv => exists s, py_str nv.2 = Return s) l ->
  exists rows,
    for_each l (fun '(name, val) =>
      s ← lift (py_str val);
      print (py "  " ++ rjust w name ++ py " : " ++ s)) self
    = (concat rows, self, Return tt)
    /\ Forall2 (local_row w) l rows.
Proof.
  induction 1 as [|[name val] l [s Hs] _ [rows [IH1 IH2]]].
  - exists []. split; [reflexivity|constructor].
  - exists ((py "  " ++ spaces (w - len name) ++ name ++ py " : " ++ s ++ [LF]) :: rows).
    split.
    + cbn [for_each]. rewrite bind_run. cbv beta iota. rewrite bind_run.
      unfold lift at 1. cbn [snd] in Hs. rewrite Hs. unfold print, write in IH1 |- *.
      cbv beta iota. rewrite IH1. cbn [concat]. unfold rjust.
      f_equal. f_equal. now rewrite <- !app_assoc.
    + constructor; [|exact IH2]. exists s. split; [exact Hs|reflexivity].
Qed.

(** X13: the locals overview prints one line per local variable of the
    focused frame, in the frame's order; every name fits the column,
    whose width is the length of a longest name, so that the separators
    line up. *)
Theorem locals_overview_aligned text arg line (self : Explorer V) f :
  Cmd_parseline text = (Some (py "w"), Some arg, line) ->
  getitem (frames self) (index self) = Return f ->
  f_locals (frame f) <> [] ->
  Forall (fun nv => exists s, py_str nv.2 = Return s) (f_locals (frame f)) ->
  exists w rows,
    onecmd text self = (concat rows, set_lastcmd line self, Return false)
    /\ Forall2 (local_row w) (f_locals (frame f)) rows
    /\ Forall (fun nv => len nv.1 <= w) (f_locals (frame f))
    /\ Exists (fun nv => len nv.1 = w) (f_locals (frame f)).
Proof.
  intros Hp Hf Hne Hstr.
  destruct (max_len (map fst (f_locals (frame f)))) as [w| |] eqn:Hw;
    [|destruct (f_locals (frame f)); [congruence|discriminate]..].
  destruct (max_len_spec _ _ Hw) as [Hle Hex].
  destruct (do_w_rows w _ (set_lastcmd line self) Hstr) as [rows [Hrun Hrows]].
  exists w, rows. repeat split.
  - rewrite (onecmd_dispatch text (py "w") arg line do_w self Hp eq_refl).
    unfold do_w. rewrite bind_run. cbn [get]. cbn [frames index set_lastcmd].
    rewrite bind_run. unfold lift at 1. rewrite Hf.
    rewrite bind_run. unfold lift at 1. rewrite Hw.
    rewrite bind_run, Hrun. cbn. now rewrite app_nil_r.
  - exact Hrows.
  - rewrite List.Forall_forall in Hle |- *. intros nv Hin.
    apply Hle, in_map_iff. now exists nv.
  - apply List.Exists_exists in Hex. destruct Hex as [n [Hin Hn]].
    apply in_map_iff in Hin. destruct Hin as [nv [<- Hin]].
    apply List.Exists_exists. now exists nv.
Qed.


(** *** The html dump *)

Lemma strip_tags_plain c s :
  c <> "<"%char -> strip_tags (c :: s) = c :: strip_tags s.
Proof.
  intros Hc. cbn [strip_tags startswith py list_ascii_of_string].
  destruct (Ascii.eqb_spec c "<"); [contradiction|]. 
  destruct (Ascii.eqb_spec "<" c); [congruence|]. reflexivity.
Qed.

Lemma strip_tags_open t :
  strip_tags ("<"%char :: "b"%char :: ">"%char :: t) = strip_tags t.
Proof. now destruct t. Qed.

Lemma strip_tags_close t :
  strip_tags ("<"%char :: "/"%char :: "b"%char :: ">"%char :: t) = strip_tags t.
Proof. now destruct t. Qed.

Lemma strip_tags_app_plain s t :
  ~ In "<"%char s -> strip_tags (s ++ t) = s ++ strip_tags t.
Proof.
  induction s as [|c s IH]; intros H; [reflexivity|].
  cbn [app]. rewrite strip_tags_plain by (intros ->; apply H; now left).
  rewrite IH; [reflexivity|]. intros Hin. apply H. now right.
Qed.

Lemma match_keyword_spec s kw :
  match_keyword s = Some kw ->
  In kw keywords /\ firstn (length kw) s = kw.
Proof.
  unfold match_keyword. intros H. apply find_some in H. destruct H as [Hin H].
  split; [exact Hin|]. apply andb_prop in H. destruct H as [H _].
  clear Hin. revert s H. induction kw as [|k kw IH]; intros s H; [reflexivity|].
  destruct s as [|c s]; [discriminate|]. cbn [startswith] in H.
  apply andb_prop in H. destruct H as [Hc H]. apply Ascii.eqb_eq in Hc. subst.
  cbn [length firstn]. f_equal. now apply IH.
Qed.

Lemma keywords_plain kw :
  In kw keywords -> ~ In "<"%char kw /\ (1 <= length kw)%nat.
Proof.
  intros H. cbv in H.
  repeat (destruct H as [<-|H];
          [split; [cbv; intuition discriminate|cbv; lia]|]).
  contradiction.
Qed.

Lemma strip_tags_sub_keywords s : forall prev skip,
  ~ In "<"%char s ->
  strip_tags (sub_keywords prev skip s) = skipn skip s.
Proof.
  induction s as [|c s IH]; intros prev skip Hs.
  - now destruct skip.
  - assert (Hs' : ~ In "<"%char s) by (intros Hin; apply Hs; now right).
    assert (Hc : c <> "<"%char) by (intros ->; apply Hs; now left).
    cbn [sub_keywords]. destruct skip as [|k]; [|now rewrite IH].
    destruct (if prev then None else match_keyword (c :: s)) as [kw|] eqn:E.
    + assert (Hm : match_keyword (c :: s) = Some kw) by (destruct prev; [discriminate|exact E]).
      apply match_keyword_spec in Hm. destruct Hm as [Hin Hfst].
      destruct (keywords_plain kw Hin) as [Hplain Hlen].
      change (py "<b>" ++ kw ++ py "</b>" ++ sub_keywords (wordchar c) (length kw - 1) s)
        with ("<"%char :: "b"%char :: ">"%char
                :: (kw ++ "<"%char :: "/"%char :: "b"%char :: ">"%char
                       :: sub_keywords (wordchar c) (length kw - 1) s)).
      rewrite strip_tags_open, strip_tags_app_plain by exact Hplain.
      rewrite strip_tags_close.
      rewrite IH by exact Hs'. cbn [skipn].
      transitivity (firstn (length kw) (c :: s) ++ skipn (length kw) (c :: s));
        [|apply firstn_skipn].
      rewrite Hfst. f_equal.
      destruct (length kw) as [|n]; [lia|]. cbn [skipn].
      now replace (S n - 1)%nat with n by lia.
    + rewrite strip_tags_plain by exact Hc. rewrite IH by exact Hs'. reflexivity.
Qed.

(** X14: keyword emphasis only adds tags.  Removing the [<b>] and
    [</b>] tags from the emphasised form of an escaped line gives the
    escaped line back: the text of a source line written to the dump is
    its escaped text. *)
Theorem bold_keywords_only_adds_tags line :
  strip_tags (bold_keywords (escape line)) = escape line.
Proof.
  unfold bold_keywords. rewrite strip_tags_sub_keywords; [reflexivity|].
  apply escape_no_markup.
Qed.




Lemma ends_line_app s t : ends_line t -> ends_line (s ++ t).
Proof. unfold ends_line. intros H. now rewrite last_app, H. Qed.

Lemma html_local_run (kv : str * V) :
  py_str kv.2 <> OutOfFuel ->
  exists row, html_local kv = ([row], Return tt) /\ table_row kv row.
Proof.
  destruct kv as [key val]. cbn [snd]. intros Hs.
  unfold html_local, table_row. rewrite W_bind_run. unfold liftW. cbn [fst snd].
  destruct (py_str val) as [s|e|]; [| |congruence].
  - eexists. split; [reflexivity|]. exists (escape s).
    split; [reflexivity|]. destruct (escape_no_markup s). now repeat split.
  - eexists. split; [reflexivity|]. exists (py "ERROR").
    split; [reflexivity|]. repeat split; cbv; intuition discriminate.
Qed.

(** X15: the table of locals of the dump has one row per local
    variable of the frame, in the frame's order, unless the conversion
    of a value does not end.  A value whose conversion raises is shown
    as ERROR and does not stop the dump; the other values are shown
    escaped, so that no value cell holds markup. *)
Theorem locals_table_rows (locals : list (str * V)) :
  Forall (fun kv => py_str kv.2 <> OutOfFuel) locals ->
  exists rows,
    for_eachW locals html_local = (rows, Return tt)
    /\ Forall2 table_row locals rows.
Proof.
  induction 1 as [|kv l Hkv _ [rows [IH1 IH2]]].
  - exists []. split; [reflexivity|constructor].
  - destruct (html_local_run kv Hkv) as [row [Hrun Hrow]].
    exists (row :: rows). split; [|now constructor].
    cbn [for_eachW]. rewrite W_bind_run, Hrun, IH1. reflexivity.
Qed.






(** *** Completion of object names *)

Lemma split_dot_Some text objname attr :
  split_dot text = Some (objname, attr) -> text = objname ++ py "." ++ attr.
Proof.
  revert objname. induction text as [|c r IH]; intros objname; [discriminate|].
  cbn [split_dot]. destruct (Ascii.eqb_spec c ".") as [->|Hc].
  - now intros [= <- <-].
  - destruct (split_dot r) as [[a b]|]; [|discriminate].
    intros [= <- <-]. cbn [app]. f_equal. now apply IH.
Qed.

Lemma split_dot_None text : split_dot text = None <-> ~ In "."%char text.
Proof.
  induction text as [|c r IH]; cbn [split_dot In]; [tauto|].
  destruct (Ascii.eqb_spec c ".") as [->|Hc].
  - split; [discriminate|]. intros H. exfalso. apply H. now left.
  - destruct (split_dot r) as [[a b]|].
    + split; [discriminate|]. intros H. exfalso.
      assert (Hr : ~ In "."%char r) by tauto. apply IH in Hr. discriminate.
    + split; [|reflexivity]. intros _ [H|H]; [congruence|]. now apply (proj1 IH).
Qed.

Lemma startswith_common_prefix base name text :
  startswith (base ++ name) (base ++ text) = startswith name text.
Proof.
  induction base as [|c base IH]; [reflexivity|].
  cbn [app startswith]. now rewrite Ascii.eqb_refl.
Qed.

Lemma readable_attrs_returns obj names objs :
  (forall name, py_getattr obj name <> OutOfFuel) ->
  exists objs', readable_attrs obj names objs = Return objs'.
Proof.
  intros Hg. revert objs. induction names as [|n names IH]; intros objs; cbn [readable_attrs].
  - now exists objs.
  - specialize (Hg n). destruct (py_getattr obj n); [apply IH|apply IH|congruence].
Qed.

Lemma complete_loop_spec fuel : forall objs base text,
  (forall obj name, py_getattr obj name <> OutOfFuel) ->
  (forall obj, py_dir obj <> OutOfFuel) ->
  (length text < fuel)%nat ->
  (exists l, complete_loop fuel objs base text = Return l
     /\ Forall (fun c => startswith c (base ++ text) = true) l
     /\ List.NoDup l)
  \/ (exists obj e, py_dir obj = Raise e
        /\ complete_loop fuel objs base text = Raise e).
Proof.
  induction fuel as [|fuel IH]; intros objs base text Hg Hd Hlen; [lia|].
  cbn [complete_loop]. destruct (split_dot text) as [[objname attr]|] eqn:E.
  - apply split_dot_Some in E. subst text.
    destruct (objs !! objname) as [obj|].
    + destruct (py_dir obj) as [names|e|] eqn:Edir.
      * destruct (readable_attrs_returns obj names ∅ (Hg obj)) as [objs' Hr].
        cbn [mbind outcome_bind]. rewrite Hr.
        destruct (IH objs' (base ++ objname ++ py ".") attr Hg Hd)
          as [(l & Hl & Hs & Hn)|(obj' & e & He & Hl)].
        { rewrite !length_app in Hlen. cbn in Hlen. lia. }
        -- left. exists l. split; [exact Hl|]. split; [|exact Hn].
           now rewrite <- !app_assoc in Hs.
        -- right. now exists obj', e.
      * right. exists obj, e. now split.
      * now destruct (Hd obj).
    + left. exists []. repeat split; constructor.
  - left. eexists. split; [reflexivity|]. split.
    + apply List.Forall_forall. intros c Hc. apply in_map_iff in Hc.
      destruct Hc as [name [<- Hname]]. apply List.filter_In in Hname.
      rewrite startswith_common_prefix. tauto.
    + apply NoDup_ListNoDup.
      apply (NoDup_fmap_2 (app base)).
      apply NoDup_ListNoDup, List.NoDup_filter, NoDup_ListNoDup.
      apply NoDup_fst_map_to_list.
Qed.

(** X17: with the focus on a frame of the chain, completion ends
    whatever the text typed (the loop over the dotted prefix ends),
    unless listing or reading an attribute does not end.  It returns
    a list, in which every completion offered starts with the text typed
    and none is offered twice, or it raises what a [dir(obj)] has
    raised: an unknown name or a failing attribute read does not make
    it fail. *)
Theorem completedefault_completions text (self : Explorer V) f :
  getitem (frames self) (index self) = Return f ->
  (forall obj name, py_getattr obj name <> OutOfFuel) ->
  (forall obj, py_dir obj <> OutOfFuel) ->
  (exists l, completedefault text self = Return l
     /\ Forall (fun c => startswith c text = true) l
     /\ List.NoDup l)
  \/ (exists obj e, py_dir obj = Raise e /\ completedefault text self = Raise e).
Proof.
  intros Hf Hg Hd. unfold completedefault. rewrite Hf. cbn [mbind outcome_bind].
  apply (complete_loop_spec (S (length text)) _ [] text Hg Hd). lia.
Qed.


Lemma dict_update_names (other : list (str * V)) : forall (d : gmap str V) name,
  is_Some (dict_update d other !! name)
  <-> is_Some (d !! name) \/ In name (map fst other).
Proof.
  unfold dict_update. induction other as [|[k v] other IH]; intros d name; cbn [foldl map In].
  - tauto.
  - rewrite IH. cbn [fst snd]. rewrite lookup_insert_is_Some.
    destruct (decide (k = name)) as [->|Hne]; [tauto|].
    split; [intros [[[]|[]]|]|intros [|[|]]]; try tauto; try congruence.
Qed.

Lemma map_names (m : gmap str V) name :
  In name (map fst (map_to_list m)) <-> is_Some (m !! name).
Proof.
  rewrite in_map_iff. split.
  - intros [[k v] [<- H]]. apply list_elem_of_In, elem_of_map_to_list in H. now exists v.
  - intros [v H]. exists (name, v). split; [reflexivity|].
    now apply list_elem_of_In, elem_of_map_to_list.
Qed.

Lemma focus_names (f : Frame V) name :
  is_Some (dict_update (dict_update ∅ (f_globals (frame f))) (f_locals (frame f)) !! name)
  <-> In name (map fst (f_locals (frame f))) \/ In name (map fst (f_globals (frame f))).
Proof.
  rewrite !dict_update_names, lookup_empty. split.
  - intros [[[? H]|]|]; [discriminate|tauto|tauto].
  - tauto.
Qed.

(** X18: for a text without a dot, completion offers exactly the names
    of the local and global variables of the focused frame that start
    with the text. *)
Theorem completedefault_variables text (self : Explorer V) f :
  ~ In "."%char text ->
  getitem (frames self) (index self) = Return f ->
  exists l, completedefault text self = Return l
    /\ forall name,
         In name l
         <-> startswith name text = true
             /\ (In name (map fst (f_locals (frame f)))
                 \/ In name (map fst (f_globals (frame f)))).
Proof.
  intros Hdot Hf. apply split_dot_None in Hdot.
  unfold completedefault. rewrite Hf. cbn [mbind outcome_bind complete_loop].
  rewrite Hdot. eexists. split; [reflexivity|]. intros name.
  rewrite List.map_id, List.filter_In, map_names, focus_names. tauto.
Qed.

(** X19: completing after a dotted name whose first segment is not a
    variable of the focused frame offers nothing, and does not fail. *)
Theorem completedefault_unknown_object objname attr (self : Explorer V) f :
  ~ In "."%char objname ->
  getitem (frames self) (index self) = Return f ->
  ~ In objname (map fst (f_locals (frame f))) ->
  ~ In objname (map fst (f_globals (frame f))) ->
  completedefault (objname ++ py "." ++ attr) self = Return [].
Proof.
  intros Hdot Hf Hl Hg.
  assert (Hs : split_dot (objname ++ py "." ++ attr) = Some (objname, attr)).
  { clear Hf Hl Hg. induction objname as [|c r IH]; [reflexivity|].
    cbn [app split_dot]. destruct (Ascii.eqb_spec c ".") as [->|Hc].
    - exfalso. apply Hdot. now left.
    - rewrite IH; [reflexivity|]. intros H. apply Hdot. now right. }
  unfold completedefault. rewrite Hf. cbn [mbind outcome_bind complete_loop].
  rewrite Hs.
  destruct (dict_update (dict_update ∅ (f_globals (frame f))) (f_locals (frame f)) !! objname)
    as [obj|] eqn:E; [|reflexivity].
  exfalso. assert (Hsome : is_Some (dict_update (dict_update ∅ (f_globals (frame f)))
                                      (f_locals (frame f)) !! objname)) by now exists obj.
  apply focus_names in Hsome. tauto.
Qed.


(** *** The entry points *)

Lemma Explorer_init_rich msg_ frames_ intro_ :
  richoutput = true ->
  exists self : Explorer V, Explorer_init msg_ frames_ intro_ = Return self.
Proof.
  intros Hr. unfold Explorer_init. destruct (wrap_words _ _ _) as [lines nextline].
  unfold banner_glyphs. rewrite Hr. cbn.
  destruct (lines ++ [nextline]); cbn; eexists; reflexivity.
Qed.

(** X6: with rich output, [breakpoint] runs the command loop on a
    session whose chain is made of the frames of its callers, outermost
    call first, each at the line it is executing: neither its own frame
    nor the frame of [frames_from_callstack] is part of the chain.  The
    session starts focused on the frame that called [breakpoint]. *)
Theorem breakpoint_explores_callers (callee own : pyframe V) (callers : callstack V)
    (inputs : list str) :
  richoutput = true ->
  exists self : Explorer V,
    breakpoint callee (Active own callers) inputs
    = ((cmdloop inputs self).1.1, (cmdloop inputs self).2)
    /\ frames self = map (fun fr => {| frame := fr; lineno := f_lineno fr |})
                         (rev (stack_frames callers))
    /\ index self = Z.of_nat (length (stack_frames callers)) - 1
    /\ msg self = py "Suspended.".
Proof.
  intros Hr.
  destruct (Explorer_init_rich (py "Suspended.")
              (map (fun fr => {| frame := fr; lineno := f_lineno fr |})
                   (rev (stack_frames callers))) suspended_intro Hr) as [self Hself].
  exists self. unfold breakpoint.
  rewrite frames_from_callstack_run by (unfold INT_MIN, INT_MAX; lia).
  change (skipn (Z.to_nat 2) (stack_frames (Active callee (Active own callers))))
    with (stack_frames callers).
  cbn [mbind outcome_bind]. rewrite Hself. cbn [run_session].
  apply Explorer_init_index in Hself as (Hf & Hm & Hi).
  split; [now destruct (cmdloop inputs self) as [[out s] r]|].
  split; [exact Hf|]. split; [|exact Hm].
  rewrite Hi. now rewrite length_map, length_rev.
Qed.

End DebugRestFacts.

(** ** The rest of the config module *)

Module ConfigRestFacts.
Import Config ConfigSpec ConfigRest ConfigFacts.


Section Overrides.

Context {V : Type} `{EqDecision V} `{!Klass V}.





End Overrides.


Section Shown.

Context {V : Type}.

Variable repr : V -> string.

Lemma by_name_trans : Transitive (by_name (V := V)).
Proof. intros a b c. unfold by_name. apply (transitivity (R := String.le)). Qed.

Lemma by_name_total : Total (by_name (V := V)).
Proof. intros a b. unfold by_name. apply (total String.le). Qed.

Lemma StronglySorted_filter {A} (R : relation A) (f : A -> bool) l :
  StronglySorted R l -> StronglySorted R (List.filter f l).
Proof.
  induction 1 as [|a l Hs IH Ha]; cbn [List.filter]; [constructor|].
  destruct (f a); [|exact IH]. constructor; [exact IH|].
  apply List.Forall_forall. intros x Hx. apply List.filter_In in Hx as [Hx _].
  rewrite List.Forall_forall in Ha. now apply Ha.
Qed.

Lemma NoDup_fst_filter {A B} (f : A * B -> bool) (l : list (A * B)) :
  List.NoDup (map fst l) -> List.NoDup (map fst (List.filter f l)).
Proof.
  induction l as [|a l IH]; cbn [map List.filter]; intros H; [constructor|].
  inversion H as [|? ? Hn Hd]; subst. destruct (f a); [|now apply IH].
  cbn [map]. constructor; [|now apply IH].
  intros Hin. apply Hn. apply in_map_iff in Hin as [x [Hx Hin]].
  apply List.filter_In in Hin as [Hin _]. apply in_map_iff. now exists x.
Qed.

(** X23: the text of the configuration lists, after the heading, the
    settings as name=value separated by commas: exactly the attributes
    whose name does not start with an underscore, each once, in the
    order of their names. *)
Theorem str_lists_public_settings (self : gmap string V) :
  exists items,
    __str__ repr self
    = "configuration: "
      +:+ String.concat ", " (map (fun kv => kv.1 +:+ "=" +:+ repr kv.2) items)
    /\ StronglySorted (fun a b => String.le a.1 b.1) items
    /\ List.NoDup (map fst items)
    /\ forall k v, In (k, v) items <-> self !! k = Some v /\ String.prefix "_" k = false.
Proof.
  exists (shown_items self). split; [reflexivity|].
  pose proof (merge_sort_Permutation (by_name (V := V)) (map_to_list self)) as Hperm.
  unfold shown_items. split; [|split].
  - apply StronglySorted_filter.
    exact (@StronglySorted_merge_sort _ (by_name (V := V)) _ by_name_trans by_name_total _).
  - apply NoDup_fst_filter, NoDup_ListNoDup.
    rewrite Hperm. apply NoDup_fst_map_to_list.
  - intros k v. rewrite List.filter_In. cbn [fst].
    rewrite <- list_elem_of_In, Hperm, elem_of_map_to_list.
    rewrite negb_true_iff. reflexivity.
Qed.

End Shown.

End ConfigRestFacts.

(** * Concrete runs *)

Module Examples.

(** Objects: strings, objects given by their [repr], and an object
    whose [str] raises. *)
Inductive obj := Str (s : str) | Obj (r : str) | Unprintable.

Definition obj_str (v : obj) : outcome str :=
  match v with
  | Str s => Return s
  | Obj r => Return r
  | Unprintable => Raise (Exc (py "TypeError") true (Text (py "__str__ returned non-string")))
  end.

Definition quoted (s : str) : str := py "'" ++ s ++ py "'".

Definition obj_repr (v : obj) : str :=
  match v with
  | Str s => quoted s
  | Obj r => r
  | Unprintable => py "<object>"
  end.

(** A runtime over one source file, with a given evaluator. *)
Definition runtime (file : list str) (rich : bool)
    (eval : str -> outcome obj) : Runtime obj :=
  {| linecache_getlines := fun _ => file;
     relpath := fun p => p;
     method_code_is := fun _ _ _ => false;
     py_str := obj_str;
     py_repr := obj_repr;
     py_pformat := fun v => Return (obj_repr v);
     py_eval := fun arg _ _ => eval arg;
     repr_str := quoted;
     richoutput := rich;
     Cmd_do_help := fun _ => [] |}.

Definition line (s : string) : str := py s ++ [LF].

(** Three nested calls, the innermost one raising. *)
Definition calls_py : list str :=
  [ line "def inner(x):";
    line "  return 1/x";
    line "def middle(x):";
    line "  return inner(x)";
    line "def outer(x):";
    line "  return middle(x)" ].

Definition frame_at (name : string) (first current : Z) (locals : list (str * obj))
    : pyframe obj :=
  {| f_code := {| co_filename := py "calls.py"; co_name := py name;
                  co_firstlineno := first |};
     f_lineno := current; f_locals := locals; f_globals := [] |}.

Definition outer := frame_at "outer" 5 6 [(py "x", Str (py "0"))].
Definition middle := frame_at "middle" 3 4 [(py "x", Str (py "0"))].
Definition inner := frame_at "inner" 1 2 [(py "x", Str (py "0"))].

Definition chain3 : traceback obj := Tb outer 6 (Tb middle 4 (Tb inner 2 TbNone)).

Definition ZeroDivisionError : exc :=
  Exc (py "ZeroDivisionError") true (Text (py "integer division or modulo by zero")).

Definition failing (e : exc) : str -> outcome obj := fun _ => Raise e.

Definition rt := runtime calls_py true (failing ZeroDivisionError).

Definition session (frames_ : list (Frame obj)) (i : Z) : Explorer obj :=
  {| intro := []; msg := py "ZeroDivisionError()"; frames := frames_; index := i;
     prompt := LF :: py ">>> "; lastcmd := [] |}.

Definition frames3 : list (Frame obj) := frames_from_traceback chain3.

(** The scenario of three nested calls: three frames, outermost first. *)
Example frames3_order :
  map (fun f => co_name (f_code (frame f))) frames3 = [py "outer"; py "middle"; py "inner"]
  /\ map lineno frames3 = [6; 4; 2].
Proof. split; reflexivity. Qed.

(** C4, the claim as stated fails: a link recorded at line 0 yields a
    Frame carrying the frame's current line instead. *)
Definition link_at_zero : traceback obj := Tb (frame_at "f" 0 7 []) 0 TbNone.

Lemma frames_from_traceback_line_zero :
  map lineno (frames_from_traceback link_at_zero) <> map snd (tb_links link_at_zero).
Proof. cbv. discriminate. Qed.

(** C5: the session over the three frames. *)
Definition session3 : Explorer obj :=
  match Explorer_init (Runtime0 := rt) (py "ZeroDivisionError()") frames3 (py "Your program has died.") with
  | Return s => s
  | _ => session frames3 2
  end.

Lemma explorer_focus_invariant_witness :
  frames3 <> []
  /\ Explorer_init (Runtime0 := rt) (py "ZeroDivisionError()") frames3 (py "Your program has died.")
     = Return session3
  /\ (index session3 = Z.of_nat (length frames3) - 1
      /\ focus_ok session3
      /\ (forall text (s : Explorer obj), focus_ok s -> focus_ok (onecmd (Runtime0 := rt) text s).1.2)).
Proof.
  split; [discriminate|]. split; [reflexivity|].
  apply (explorer_focus_invariant (Runtime0 := rt) (py "ZeroDivisionError()") frames3
           (py "Your program has died.") session3); [discriminate|reflexivity].
Defined.

Example session3_up_quit :
  index session3 = 2
  /\ index (onecmd (Runtime0 := rt) (py "u") session3).1.2 = 1
  /\ (onecmd (Runtime0 := rt) (py "q") session3).2 = Return true.
Proof. repeat split; reflexivity. Qed.

(** C7: constructing the session without rich output. *)
Definition rt_ascii := runtime calls_py false (failing ZeroDivisionError).

Lemma Explorer_init_ascii_raises_witness :
  richoutput (Runtime := rt_ascii) = false
  /\ Explorer_init (Runtime0 := rt_ascii) (py "Suspended.") frames3 (py "Your program is suspended.")
     = Raise (UnboundLocalError "ur").
Proof.
  split; [reflexivity|].
  apply (Explorer_init_ascii_raises (Runtime0 := rt_ascii)). reflexivity.
Defined.

(** With rich output the banner is drawn with the box glyphs. *)
Example banner_rich :
  startswith (intro session3) (box 140 ++ box 128) = true
  /\ endswith (intro session3) (box 128 ++ box 152) = true.
Proof. split; reflexivity. Qed.

(** C8: up and down on the three frames. *)
Lemma up_down_focus_witness :
  (0 < index (session frames3 2)
   /\ do_u (Runtime0 := rt) [] (session frames3 2)
      = (context_lines (Runtime0 := rt) (session frames3 1), session frames3 1, Return false))
  /\ (index (session frames3 0) = 0
      /\ do_u (Runtime0 := rt) [] (session frames3 0) = ([], session frames3 0, Return false))
  /\ (index (session frames3 1) < Z.of_nat (length (frames (session frames3 1))) - 1
      /\ do_d (Runtime0 := rt) [] (session frames3 1)
         = (context_lines (Runtime0 := rt) (session frames3 2), session frames3 2, Return false))
  /\ (index (session frames3 2) = Z.of_nat (length (frames (session frames3 2))) - 1
      /\ do_d (Runtime0 := rt) [] (session frames3 2) = ([], session frames3 2, Return false)).
Proof.
  split; [split; [reflexivity|]|split; [split; [reflexivity|]|split; [split; [reflexivity|]|split; [reflexivity|]]]].
  - apply (proj1 (up_down_focus (Runtime0 := rt) [] (session frames3 2))). reflexivity.
  - apply (proj1 (proj2 (up_down_focus (Runtime0 := rt) [] (session frames3 0)))). reflexivity.
  - apply (proj1 (proj2 (proj2 (up_down_focus (Runtime0 := rt) [] (session frames3 1))))). reflexivity.
  - apply (proj2 (proj2 (proj2 (up_down_focus (Runtime0 := rt) [] (session frames3 2))))). reflexivity.
Defined.


(** C3: an exception whose conversion raises: here a message that
    cannot be encoded.  The line of the report is begun, the second
    exception leaves [onecmd] and ends the loop. *)
Definition UnicodeEncodeError : exc :=
  Exc (py "UnicodeEncodeError") true (Text (py "'ascii' codec can't encode character")).
Definition Unencodable : exc := Exc (py "ValueError") true (Fails UnicodeEncodeError).

Definition rt_unencodable := runtime calls_py true (failing Unencodable).

Example onecmd_conversion_raises :
  onecmd (Runtime0 := rt_unencodable) (py "p f()") (session frames3 2)
  = (py "ValueError in 'p f()': ", set_lastcmd (py "p f()") (session frames3 2),
     Raise UnicodeEncodeError)
  /\ cmdloop_lines (Runtime0 := rt_unencodable) [py "p f()"; py "l"] (session frames3 2)
     = (LF :: py ">>> " ++ py "ValueError in 'p f()': ",
        set_lastcmd (py "p f()") (session frames3 2), Raise UnicodeEncodeError).
Proof. split; reflexivity. Qed.



(** C10: the [locals] command on a frame without local variables. *)
Definition bare : Frame obj := Frame_init (frame_at "inner" 1 2 []) None.

Lemma locals_of_empty_frame_witness :
  Cmd_parseline (py "w") = (Some (py "w"), Some [], py "w")
  /\ getitem (frames (session [bare] 0)) (index (session [bare] 0)) = Return bare
  /\ f_locals (frame bare) = []
  /\ onecmd (Runtime0 := rt) (py "w") (session [bare] 0)
     = (line "ValueError in 'w': max() arg is an empty sequence",
        set_lastcmd (py "w") (session [bare] 0), Return false).
Proof.
  split; [reflexivity|]. split; [reflexivity|]. split; [reflexivity|].
  apply (locals_of_empty_frame (Runtime0 := rt) (py "w") [] (py "w") (session [bare] 0) bare);
    reflexivity.
Defined.

(** C1: a method whose decorator is followed by a blank line; the
    decorator loop indexes the blank line at the indentation column. *)
Definition method_py : list str :=
  [ line "class A(object):";
    line "  @property";
    [LF];
    line "  def f(self):";
    line "    return 1/0" ].

Definition rt_method := runtime method_py true (failing ZeroDivisionError).

Definition in_method : Frame obj :=
  Frame_init {| f_code := {| co_filename := py "a.py"; co_name := py "f";
                             co_firstlineno := 2 |};
                f_lineno := 5; f_locals := []; f_globals := [] |} None.

(** C1 (what the code does): on this file [source] does not return
    the sentinel text; the decorator loop raises IndexError. *)
Lemma source_raises_IndexError :
  source (Runtime0 := rt_method) in_method
  = Raise (IndexError "string index out of range").
Proof. reflexivity. Qed.

(** C2: a failed assertion on a value holding markup. *)
Definition check_py : list str :=
  [ line "def check(x):";
    line "  assert x < 0, x" ].

Definition rt_check := runtime check_py true (failing ZeroDivisionError).

Definition script_info : obj * obj * traceback obj :=
  (Obj (py "<type 'exceptions.AssertionError'>"),
   Obj (py "AssertionError('<script>',)"),
   Tb {| f_code := {| co_filename := py "check.py"; co_name := py "check";
                      co_firstlineno := 1 |};
         f_lineno := 2; f_locals := [(py "x", Str (py "<script>"))];
         f_globals := [] |} 2 TbNone).

(** C2 (what the code does): the dump ends normally and holds the
    value of the local variable and the cursor line unescaped, in the
    list of frame contexts under the banner; only the per-frame table
    has the value escaped. *)
Lemma write_html_unescaped_header :
  let out := concat (write_html (Runtime0 := rt_check) script_info).1 in
  (write_html (Runtime0 := rt_check) script_info).2 = Return tt
  /\ contains out (py "<script>") = true
  /\ contains out (py "    assert x < 0, x<hr/>") = true
  /\ contains out (py "<td>&lt;script&gt;</td>") = true.
Proof. repeat split; reflexivity. Qed.

(** C6: the innermost frame of the three calls, cursor on the body line. *)
Definition inner_frame : Frame obj := Frame_init inner (Some 2).

Ltac breakfree_tac := repeat (constructor; [split; discriminate|]); constructor.

Definition inner_body : list str := [line "  return 1/x"].

Definition inner_rest : list str :=
  [line "def middle(x):"; line "  return inner(x)";
   line "def outer(x):"; line "  return middle(x)"].

Lemma html_cursor_span_witness :
  linecache_getlines (Runtime := rt) (co_filename (f_code (frame inner_frame)))
    = [] ++ map (indented 0) ([] ++ [py "def inner(x):"]) ++ inner_body ++ inner_rest
  /\ co_firstlineno (f_code (frame inner_frame)) = Z.of_nat (S (length (@nil str)))
  /\ Forall decorator [] /\ Forall breakfree []
  /\ isspace "d" = false /\ "d"%char <> "@"%char /\ "d"%char <> ">"%char
  /\ breakfree (py "def inner(x):")
  /\ Forall (body_line 0) inner_body
  /\ ends_block 0 (final_linebreak false inner_body) inner_rest = true
  /\ inner_body !! 0%nat = Some (line "  return 1/x")
  /\ (1 < length (line "  return 1/x"))%nat
  /\ lineno inner_frame = Z.of_nat (S (length (@nil str) + length (@nil str) + 1 + 0))
  /\ (count_error_spans (html_frame (Runtime0 := rt) inner_frame).1 = 1%nat
      /\ exists T,
           (T = removelast (skipn 1 (line "  return 1/x"))
            \/ T = rstrip (removelast (skipn 1 (line "  return 1/x"))))
           /\ In (span_error ++ py " " ++ bold_keywords (escape T) ++ py "</span>" ++ [LF])
                 (html_frame (Runtime0 := rt) inner_frame).1).
Proof.
  assert (Hbody : Forall (body_line 0) inner_body).
  { constructor; [|constructor]. exists (py "  return 1/x").
    split; [reflexivity|]. split; [breakfree_tac|]. repeat constructor. }
  assert (Hdef : breakfree (py "def inner(x):")) by breakfree_tac.
  do 2 (split; [reflexivity|]). do 2 (split; [constructor|]).
  split; [reflexivity|]. do 2 (split; [discriminate|]).
  split; [exact Hdef|]. split; [exact Hbody|].
  do 2 (split; [reflexivity|]). split; [cbn; lia|]. split; [reflexivity|].
  apply (html_cursor_span (Runtime0 := rt) inner_frame [] 0 [] "d" (py "ef inner(x):")
           inner_body inner_rest 0 (line "  return 1/x"));
    [reflexivity|reflexivity|constructor|constructor|reflexivity|discriminate
    |discriminate|exact Hdef|exact Hbody|reflexivity|reflexivity|cbn; lia|reflexivity].
Defined.

Example inner_span_text :
  span_error ++ py " " ++ bold_keywords (escape (py " return 1/x")) ++ py "</span>"
  = span_error ++ py "  <b>return</b> 1/x</span>".
Proof. reflexivity. Qed.

(** C6, the claim as stated fails: for a function written on one line
    the cursor line is the definition line, which the reconstruction
    never marks, and the section has no error span. *)
Definition one_line_py : list str := [ line "def inv(x): return 1/x" ].

Definition rt_one_line := runtime one_line_py true (failing ZeroDivisionError).

Definition in_one_line : Frame obj := Frame_init (frame_at "inv" 1 1 []) (Some 1).

Lemma html_no_span_on_definition_line :
  source (Runtime0 := rt_one_line) in_one_line = Return (py "def inv(x): return 1/x")
  /\ (html_frame (Runtime0 := rt_one_line) in_one_line).2 = Return tt
  /\ count_error_spans (html_frame (Runtime0 := rt_one_line) in_one_line).1 = 0%nat
  /\ contains (concat (html_frame (Runtime0 := rt_one_line) in_one_line).1) span_error
     = false.
Proof. repeat split; reflexivity. Qed.

End Examples.

(** * More concrete runs *)

Module MoreExamples.
Import Examples.


(** X2: a code object whose first line lies beyond the file. *)
Definition beyond : Frame obj := Frame_init (frame_at "gone" 99 100 []) None.

Lemma source_outside_file_witness :
  ~ (1 <= co_firstlineno (f_code (frame beyond))
       <= Z.of_nat (length (linecache_getlines (Runtime := rt)
                              (co_filename (f_code (frame beyond))))))
  /\ source (Runtime0 := rt) beyond = Return (py "<not avaliable>").
Proof.
  assert (H : ~ (1 <= co_firstlineno (f_code (frame beyond))
                   <= Z.of_nat (length (linecache_getlines (Runtime := rt)
                                          (co_filename (f_code (frame beyond)))))))
    by (cbn; lia).
  split; [exact H|]. exact (source_outside_file (Runtime0 := rt) beyond H).
Defined.

(** X3: the innermost of the three calls has no decorator. *)
Lemma source_without_decorator_witness :
  lstrip (getline (Runtime0 := rt) inner_frame (co_firstlineno (f_code (frame inner_frame))))
    = "d"%char :: line "ef inner(x):"
  /\ "d"%char <> "@"%char
  /\ exists text, source (Runtime0 := rt) inner_frame = Return text.
Proof.
  split; [reflexivity|]. split; [discriminate|].
  apply (source_without_decorator (Runtime0 := rt) inner_frame "d" (line "ef inner(x):"));
    [reflexivity|discriminate].
Defined.

(** X4: the same function, looked at from its definition line. *)
Definition inner_at_def : Frame obj := Frame_init inner (Some 1).

Lemma source_dedents_witness :
  linecache_getlines (Runtime := rt) (co_filename (f_code (frame inner_at_def)))
    = [] ++ map (indented 0) ([] ++ [py "def inner(x):"]) ++ inner_body ++ inner_rest
  /\ co_firstlineno (f_code (frame inner_at_def)) = Z.of_nat (S (length (@nil str)))
  /\ Forall decorator []
  /\ isspace "d" = false /\ "d"%char <> "@"%char
  /\ Forall (body_line 0) inner_body
  /\ ends_block 0 (final_linebreak false inner_body) inner_rest = true
  /\ ~ (Z.of_nat (length (@nil str) + length (@nil str) + 1) < lineno inner_at_def
          <= Z.of_nat (length (@nil str) + length (@nil str) + 1 + length inner_body))
  /\ source (Runtime0 := rt) inner_at_def
     = Return (rstrip (unlines ([] ++ [py "def inner(x):"])
                         ++ concat (map (skipn 0) inner_body))).
Proof.
  assert (Hbody : Forall (body_line 0) inner_body).
  { constructor; [|constructor]. exists (py "  return 1/x").
    split; [reflexivity|]. split; [breakfree_tac|]. repeat constructor. }
  assert (Hcur : ~ (Z.of_nat (length (@nil str) + length (@nil str) + 1) < lineno inner_at_def
          <= Z.of_nat (length (@nil str) + length (@nil str) + 1 + length inner_body)))
    by (cbn; lia).
  do 2 (split; [reflexivity|]). split; [constructor|].
  split; [reflexivity|]. split; [discriminate|]. split; [exact Hbody|].
  split; [reflexivity|]. split; [exact Hcur|].
  apply (source_dedents (Runtime0 := rt) inner_at_def [] 0 [] "d" (py "ef inner(x):")
           inner_body inner_rest);
    [reflexivity|reflexivity|constructor|reflexivity|discriminate|exact Hbody
    |reflexivity|exact Hcur].
Defined.

(** X7: a blank line after [l]. *)
Definition after_list : Explorer obj := set_lastcmd (py "l") (session frames3 2).

Lemma emptyline_repeats_witness :
  strip (py "  ") = []
  /\ lastcmd_ok after_list
  /\ (forall e, (onecmd (Runtime0 := rt) (lastcmd after_list) after_list).2 = Raise e ->
                exc_is_Exception e = false)
  /\ onecmd (Runtime0 := rt) (py "  ") after_list
     = except_Exception (Runtime0 := rt) (py "  ") (onecmd (Runtime0 := rt) (py "l") after_list)
  /\ onecmd (Runtime0 := rt) (py "  ") after_list = onecmd (Runtime0 := rt) (py "l") after_list.
Proof.
  assert (Hok : lastcmd_ok after_list) by (right; discriminate).
  assert (Hno : forall e, (onecmd (Runtime0 := rt) (lastcmd after_list) after_list).2 = Raise e ->
                          exc_is_Exception e = false) by (intros e H; discriminate H).
  split; [reflexivity|]. split; [exact Hok|]. split; [exact Hno|].
  split.
  - exact (proj1 (emptyline_repeats (Runtime0 := rt) (py "  ") after_list eq_refl Hok)).
  - exact (proj2 (emptyline_repeats (Runtime0 := rt) (py "  ") after_list eq_refl Hok) Hno).
Defined.

(** X8: a word that is no command. *)
Lemma unknown_syntax_witness :
  Cmd_parseline (py "frobnicate") = (Some (py "frobnicate"), Some [], py "frobnicate")
  /\ py "frobnicate" <> []
  /\ handler (V := obj) (Runtime0 := rt) (py "frobnicate") = None
  /\ exists self',
       onecmd (Runtime0 := rt) (py "frobnicate") (session frames3 2)
       = (py "*** Unknown syntax: " ++ py "frobnicate" ++ [LF], self', Return false)
       /\ frames self' = frames (session frames3 2)
       /\ index self' = index (session frames3 2)
       /\ msg self' = msg (session frames3 2).
Proof.
  split; [reflexivity|]. split; [discriminate|]. split; [reflexivity|].
  apply (unknown_syntax (Runtime0 := rt) (py "frobnicate") (Some (py "frobnicate"))
           (Some []) (py "frobnicate") (session frames3 2));
    [reflexivity|discriminate|reflexivity].
Defined.

(** X9: quit, with a line left unread. *)
Lemma quit_ends_loop_witness :
  Cmd_parseline (py "q") = (Some (py "q"), Some [], py "q")
  /\ cmdloop_lines (Runtime0 := rt) [py "q"; py "l"] (session frames3 2)
     = (prompt (session frames3 2) ++ py "quit." ++ [LF],
        set_lastcmd (py "q") (session frames3 2), Return tt).
Proof.
  split; [reflexivity|].
  exact (quit_ends_loop (Runtime0 := rt) (py "q") [] (py "q") [py "l"] (session frames3 2)
           eq_refl).
Defined.

(** X10: the command that has ended the loop. *)
Lemma only_quit_ends_loop_witness :
  lastcmd_ok (session frames3 2)
  /\ (onecmd (Runtime0 := rt) (py "q") (session frames3 2)).2 = Return true
  /\ exists run arg line,
       (run = py "q" \/ (strip (py "q") = [] /\ run = lastcmd (session frames3 2)))
       /\ Cmd_parseline run = (Some (py "q"), Some arg, line).
Proof.
  assert (Hok : lastcmd_ok (session frames3 2)) by (left; reflexivity).
  split; [exact Hok|]. split; [reflexivity|].
  exact (only_quit_ends_loop (Runtime0 := rt) (py "q") (session frames3 2) Hok eq_refl).
Defined.

(** X11: the locals command on an empty chain. *)
Lemma commands_on_empty_chain_witness :
  frames (session [] (-1)) = [] /\ index (session [] (-1)) = -1
  /\ Cmd_parseline (py "w") = (Some (py "w"), Some [], py "w")
  /\ In (py "w") [py "s"; py "w"; py "p"; py "pp"]
  /\ onecmd (Runtime0 := rt) (py "w") (session [] (-1))
     = (line "IndexError in 'w': list index out of range",
        set_lastcmd (py "w") (session [] (-1)), Return false).
Proof.
  assert (Hin : In (py "w") [py "s"; py "w"; py "p"; py "pp"]) by (right; left; reflexivity).
  do 3 (split; [reflexivity|]). split; [exact Hin|].
  exact (commands_on_empty_chain (Runtime0 := rt) (py "w") (py "w") [] (py "w")
           (session [] (-1)) eq_refl eq_refl eq_refl Hin).
Defined.

(** X12: show-source with the focus on the middle frame. *)
Definition middle_frame : Frame obj := Frame_init middle (Some 4).

Definition middle_source : str :=
  py "def middle(x):" ++ [LF] ++ py "> return inner(x)".

Lemma show_source_output_witness :
  Cmd_parseline (py "s") = (Some (py "s"), Some [], py "s")
  /\ 0 <= index (session frames3 1)
  /\ nth_error (frames (session frames3 1)) (Z.to_nat (index (session frames3 1)))
     = Some middle_frame
  /\ source (Runtime0 := rt) middle_frame = Return middle_source
  /\ onecmd (Runtime0 := rt) (py "s") (session frames3 1)
     = (flat_map (fun g => where_ (Runtime0 := rt) g ++ [LF])
                 (firstn (S (Z.to_nat (index (session frames3 1))))
                         (frames (session frames3 1)))
          ++ middle_source ++ [LF],
        set_lastcmd (py "s") (session frames3 1), Return false).
Proof.
  assert (Hi : 0 <= index (session frames3 1)) by (cbn; lia).
  split; [reflexivity|]. split; [exact Hi|]. do 2 (split; [reflexivity|]).
  exact (show_source_output (Runtime0 := rt) (py "s") [] (py "s") (session frames3 1)
           middle_frame middle_source eq_refl Hi eq_refl eq_refl).
Defined.

(** X13: two local variables with names of different lengths. *)
Definition two_locals : Frame obj :=
  Frame_init (frame_at "inner" 1 2 [(py "x", Str (py "0")); (py "total", Obj (py "12"))]) None.

Lemma locals_overview_aligned_witness :
  Cmd_parseline (py "w") = (Some (py "w"), Some [], py "w")
  /\ getitem (frames (session [two_locals] 0)) (index (session [two_locals] 0))
     = Return two_locals
  /\ f_locals (frame two_locals) <> []
  /\ Forall (fun nv => exists s, py_str (Runtime := rt) nv.2 = Return s)
            (f_locals (frame two_locals))
  /\ exists w rows,
       onecmd (Runtime0 := rt) (py "w") (session [two_locals] 0)
       = (concat rows, set_lastcmd (py "w") (session [two_locals] 0), Return false)
       /\ Forall2 (local_row (Runtime0 := rt) w) (f_locals (frame two_locals)) rows
       /\ Forall (fun nv => len nv.1 <= w) (f_locals (frame two_locals))
       /\ Exists (fun nv => len nv.1 = w) (f_locals (frame two_locals)).
Proof.
  assert (Hstr : Forall (fun nv => exists s, py_str (Runtime := rt) nv.2 = Return s)
                        (f_locals (frame two_locals))).
  { repeat constructor; eexists; reflexivity. }
  split; [reflexivity|]. split; [reflexivity|]. split; [discriminate|].
  split; [exact Hstr|].
  apply (locals_overview_aligned (Runtime0 := rt) (py "w") [] (py "w")
           (session [two_locals] 0) two_locals);
    [reflexivity|reflexivity|discriminate|exact Hstr].
Defined.

Example two_locals_overview :
  (onecmd (Runtime0 := rt) (py "w") (session [two_locals] 0)).1.1
  = line "      x : 0" ++ line "  total : 12".
Proof. reflexivity. Qed.

(** X15: a value with markup and a value whose [str] raises. *)
Definition odd_locals : list (str * obj) :=
  [(py "tag", Str (py "<b>")); (py "bad", Unprintable)].

Lemma locals_table_rows_witness :
  Forall (fun kv => py_str (Runtime := rt) kv.2 <> OutOfFuel) odd_locals
  /\ exists rows,
       for_eachW odd_locals (html_local (Runtime0 := rt)) = (rows, Return tt)
       /\ Forall2 (table_row (Runtime0 := rt)) odd_locals rows.
Proof.
  assert (H : Forall (fun kv => py_str (Runtime := rt) kv.2 <> OutOfFuel) odd_locals)
    by (repeat constructor; discriminate).
  split; [exact H|]. exact (locals_table_rows (Runtime0 := rt) odd_locals H).
Defined.

Example odd_locals_rows :
  (for_eachW odd_locals (html_local (Runtime0 := rt))).1
  = [line "<tr><td>tag</td><td>&lt;b&gt;</td></tr>";
     line "<tr><td>bad</td><td>ERROR</td></tr>"].
Proof. reflexivity. Qed.

(** X6: a breakpoint inside the three nested calls. *)
Definition in_breakpoint : pyframe obj := frame_at "breakpoint" 281 282 [].
Definition in_callstack : pyframe obj := frame_at "frames_from_callstack" 230 232 [].

Definition callers3 : callstack obj :=
  Active inner (Active middle (Active outer NoFrame)).

(** X5: the stack of the three calls, seen from frames_from_callstack
    at depth 2, at a depth beyond the stack and at a depth that is no C
    [int]. *)
Definition stack5 : callstack obj := Active in_callstack (Active in_breakpoint callers3).

Lemma frames_from_callstack_frames_witness :
  INT_MIN <= 2 <= INT_MAX
  /\ frames_from_callstack stack5 2
     = Return (map (fun fr => {| frame := fr; lineno := f_lineno fr |})
                   [outer; middle; inner])
  /\ Z.of_nat (length (stack_frames stack5)) <= 7 <= INT_MAX
  /\ frames_from_callstack stack5 7 = Return []
  /\ ~ (INT_MIN <= 2 ^ 31 <= INT_MAX)
  /\ exists e, frames_from_callstack stack5 (2 ^ 31) = Raise e
               /\ exc_class e = py "OverflowError".
Proof.
  assert (H2 : INT_MIN <= 2 <= INT_MAX) by (unfold INT_MIN, INT_MAX; lia).
  assert (H7 : Z.of_nat (length (stack_frames stack5)) <= 7 <= INT_MAX)
    by (unfold INT_MAX; cbn; lia).
  assert (Hbig : ~ (INT_MIN <= 2 ^ 31 <= INT_MAX)) by (unfold INT_MIN, INT_MAX; lia).
  split; [exact H2|]. split.
  - exact (proj1 (frames_from_callstack_frames stack5 2) H2).
  - split; [exact H7|]. split.
    + exact (proj1 (proj2 (frames_from_callstack_frames stack5 7)) H7).
    + split; [exact Hbig|].
      exact (proj2 (proj2 (frames_from_callstack_frames stack5 (2 ^ 31))) Hbig).
Defined.

Lemma breakpoint_explores_callers_witness :
  richoutput (Runtime := rt) = true
  /\ exists self : Explorer obj,
       breakpoint (Runtime0 := rt) in_callstack (Active in_breakpoint callers3) [py "q"]
       = ((cmdloop (Runtime0 := rt) [py "q"] self).1.1,
          (cmdloop (Runtime0 := rt) [py "q"] self).2)
       /\ frames self = map (fun fr => {| frame := fr; lineno := f_lineno fr |})
                            (rev (stack_frames callers3))
       /\ index self = Z.of_nat (length (stack_frames callers3)) - 1
       /\ msg self = py "Suspended.".
Proof.
  split; [reflexivity|].
  exact (breakpoint_explores_callers (Runtime0 := rt) in_callstack in_breakpoint callers3
           [py "q"] eq_refl).
Defined.

(** Name completion: strings have two readable attributes; reading any
    other attribute raises. *)
#[local] Instance introspect : Introspect obj :=
  {| py_dir := fun v => match v with
                        | Str _ => Return [py "lower"; py "upper"; py "broken"]
                        | _ => Return []
                        end;
     py_getattr := fun v name =>
       if PyStr.eqb name (py "broken")
       then Raise (Exc (py "AttributeError") true (Text name))
       else Return (Obj (py "<built-in method>")) |}.

(** X17: completing an attribute of the local variable [x]. *)
Lemma completedefault_completions_witness :
  getitem (frames (session frames3 2)) (index (session frames3 2)) = Return inner_frame
  /\ (forall (v : obj) name, py_getattr v name <> OutOfFuel)
  /\ (forall v : obj, py_dir v <> OutOfFuel)
  /\ ((exists l,
         completedefault (py "x.up") (session frames3 2) = Return l
         /\ Forall (fun c => startswith c (py "x.up") = true) l
         /\ List.NoDup l)
      \/ (exists (v : obj) e,
            py_dir v = Raise e
            /\ completedefault (py "x.up") (session frames3 2) = Raise e)).
Proof.
  assert (Hg : forall (v : obj) name, py_getattr v name <> OutOfFuel).
  { intros v name. unfold py_getattr, introspect.
    destruct (PyStr.eqb name (py "broken")); discriminate. }
  assert (Hd : forall v : obj, py_dir v <> OutOfFuel) by (intros [ | | ]; discriminate).
  split; [reflexivity|]. split; [exact Hg|]. split; [exact Hd|].
  exact (completedefault_completions (py "x.up") (session frames3 2) inner_frame eq_refl
           Hg Hd).
Defined.

Example completedefault_attribute :
  completedefault (py "x.up") (session frames3 2) = Return [py "x.upper"].
Proof. vm_compute. reflexivity. Qed.

(** An object whose [dir] raises: completing one of its attributes
    raises the same exception. *)
Definition dir_fails : exc := Exc (py "TypeError") true (Text (py "__dir__() must return a list")).

Definition introspect_strict : Introspect obj :=
  {| py_dir := fun v => match v with
                        | Unprintable => Raise dir_fails
                        | _ => Return []
                        end;
     py_getattr := fun v name => Return v |}.

Definition odd_frame : Frame obj :=
  Frame_init (frame_at "inner" 1 2 [(py "bad", Unprintable)]) None.

Example completedefault_dir_raises :
  completedefault (H := introspect_strict) (py "bad.x") (session [odd_frame] 0)
  = Raise dir_fails.
Proof. vm_compute. reflexivity. Qed.

(** X18: completing a variable name. *)
Lemma completedefault_variables_witness :
  ~ In "."%char (py "x")
  /\ getitem (frames (session frames3 2)) (index (session frames3 2)) = Return inner_frame
  /\ exists l,
       completedefault (py "x") (session frames3 2) = Return l
       /\ forall name,
            In name l
            <-> startswith name (py "x") = true
                /\ (In name (map fst (f_locals (frame inner_frame)))
                    \/ In name (map fst (f_globals (frame inner_frame)))).
Proof.
  assert (Hdot : ~ In "."%char (py "x")) by (cbv; intuition discriminate).
  split; [exact Hdot|]. split; [reflexivity|].
  exact (completedefault_variables (py "x") (session frames3 2) inner_frame Hdot eq_refl).
Defined.

(** X19: completing after a name that is not a variable of the frame. *)
Lemma completedefault_unknown_object_witness :
  ~ In "."%char (py "y")
  /\ getitem (frames (session frames3 2)) (index (session frames3 2)) = Return inner_frame
  /\ ~ In (py "y") (map fst (f_locals (frame inner_frame)))
  /\ ~ In (py "y") (map fst (f_globals (frame inner_frame)))
  /\ completedefault (py "y" ++ py "." ++ py "up") (session frames3 2) = Return [].
Proof.
  assert (Hdot : ~ In "."%char (py "y")) by (cbv; intuition discriminate).
  assert (Hl : ~ In (py "y") (map fst (f_locals (frame inner_frame))))
    by (cbv; intuition discriminate).
  assert (Hg : ~ In (py "y") (map fst (f_globals (frame inner_frame))))
    by (cbv; intuition discriminate).
  split; [exact Hdot|]. split; [reflexivity|]. split; [exact Hl|]. split; [exact Hg|].
  exact (completedefault_unknown_object (py "y") (py "up") (session frames3 2) inner_frame
           Hdot eq_refl Hl Hg).
Defined.

End MoreExamples.

Module ConfigExamples.
Import Config ConfigSpec ConfigRest ConfigFacts ConfigRestFacts.

#[local] Open Scope string_scope.

(** Values: numbers, the class of the object and the methods bound by
    a lookup. *)
Inductive value := Num (n : Z) | BoundMethod (name : string) | TheClass.

#[local] Instance value_eq_dec : EqDecision value.
Proof. solve_decision. Defined.

(** The class of the configuration object, as far as the examples go:
    two of its methods and the descriptor [__class__], which accepts
    the class the object has and nothing else. *)
#[local] Instance klass : Klass value :=
  {| class_lookup := fun k =>
       if String.eqb k "__str__" then Some (Method (BoundMethod "__str__"))
       else if String.eqb k "__call__" then Some (Method (BoundMethod "__call__"))
       else if String.eqb k "__class__" then Some (DataDescriptor TheClass)
       else None;
     descr_set := fun k v =>
       match v with
       | TheClass => Return tt
       | _ => Raise (Exc (py "TypeError") true (Text (py "__class__ must be set to a class")))
       end;
     descr_delete := fun k =>
       Raise (Exc (py "TypeError") true (Text (py "can't delete __class__ attribute"))) |}.

(** A configuration with two settings. *)
Definition defaults : gmap string value := <["nprocs" := Num 1]> {["verbose" := Num 4]}.








(** What is recorded for a name that only the class defines. *)
Example recorded_class_name :
  recorded ({["__str__" := Num 7]} : gmap string value) defaults !! "__str__"
  = Some (Some (BoundMethod "__str__")).
Proof. vm_compute. reflexivity. Qed.





(** X23: the text of a configuration with a private attribute. *)
Example str_of_defaults :
  __str__ (fun v : Z => NilEmpty.string_of_int (Z.to_int v))
          (<["__name__" := 0]> (<["nprocs" := 1]> {["verbose" := 4]}))
  = "configuration: nprocs=1, verbose=4".
Proof. vm_compute. reflexivity. Qed.

End ConfigExamples.
